(** * ape-starknet: the account and key-custody subsystem

    A shallow embedding of [ape_starknet/accounts/__init__.py]: the account
    container [StarknetAccountContracts], the two account classes
    [StarknetEphemeralAccount] and [StarknetKeyfileAccount], and the helper
    [_clean_network_name].

    Python dictionaries are finite maps ([gmap string _]), the data folder is
    a finite map from the stem of a key file to the JSON object stored in it
    (the file of an alias that is a file name is [<alias>.json], whose stem
    is the alias unless the alias is empty, and [json.loads] gives back
    what [json.dumps] was given), and every method is a computation in
    a small state-and-exception monad in which, as in Python, the mutations
    made before a [raise] survive it. The terminal, the provider, the random
    source and the libraries for key files and key pairs stay outside: the
    first three are part of the environment a method runs in, the libraries
    are the operations of the class [Externals].

    The helpers of [ape_starknet/_utils.py] ([get_chain_id],
    [is_hex_address], [to_checksum_address], [handle_client_errors]) and
    the [TokenManager] of [ape_starknet/tokens.py] follow the account
    classes. The regular expression of [is_hex_address] is matched by
    derivatives; the contract calls of the token manager are operations of
    the class [TokenExternals]. *)

From Stdlib Require Import ZArith String Ascii List Bool Lia.
From stdpp Require Import base option list strings gmap fin_maps.
Import ListNotations.

Local Open Scope string_scope.
Local Open Scope Z_scope.

(** ** Strings: the [in] operator and [str.strip] *)

(** [t in s] on Python strings: [t] occurs in [s] as a contiguous run. *)
Fixpoint str_in (t s : string) : bool :=
  String.prefix t s
  || match s with
     | EmptyString => false
     | String _ s' => str_in t s'
     end.

(** What [str_in] decides. *)
Definition occurs_in (t s : string) : Prop :=
  exists pre post : string, s = pre +:+ t +:+ post.

Fixpoint lstrip (chars : list ascii) (s : string) : string :=
  match s with
  | EmptyString => EmptyString
  | String c s' =>
      if existsb (Ascii.eqb c) chars then lstrip chars s' else s
  end.

(** [s.strip(chars)]: leading and trailing characters of [chars] removed. *)
Definition strip (chars : list ascii) (s : string) : string :=
  String.rev (lstrip chars (String.rev (lstrip chars s))).

(** ** Network names *)

(** [LOCAL_NETWORK_NAME] of [ape.api.networks]. *)
Definition LOCAL_NETWORK_NAME : string := "local".

Definition network_tokens : list string := ["local"; "mainnet"; "testnet"].

(** [_clean_network_name]: the first of the three tokens, in this order,
    that occurs in [network]; [network] itself when none does. *)
Definition _clean_network_name (network : string) : string :=
  match find (fun net => str_in net network) network_tokens with
  | Some net => net
  | None => network
  end.

(** ** Aliases and key files

    The key files are the files [*.json] directly in the data folder, and
    a key file is given by its stem: that is what the container lists
    ([aliases]) and looks for ([load_key_file_account]). The stems of the
    key files of a folder are taken to be pairwise distinct. *)

(** The stem of [data_folder.joinpath(f"{alias}.json")], for an alias that
    is a file name. [Path.stem] cuts a name at its last dot unless that dot
    is its first character: the stem of [bob.json] is [bob], and the stem
    of [.json], the file of the empty alias, is [.json] itself. *)
Definition key_file_stem (alias : string) : string :=
  if String.eqb alias "" then ".json" else alias.

(** An alias is a file name when it holds neither the path separator nor
    a NUL. With a separator in it, [joinpath] names a file of another
    folder (or of a subfolder that may not exist), and no path may hold a
    NUL; what becomes of the key file then is decided by the file system
    outside the data folder and is not followed here. *)
Definition is_file_name (alias : string) : bool :=
  forallb (fun c => negb (Ascii.eqb c "/") && negb (Ascii.eqb c Ascii.zero))
    (list_ascii_of_string alias).

(** ** Exceptions and the monad of methods *)

(** The messages of [AccountsError] raised by this package. *)
Inductive AccountsErrorMsg : Type :=
| NotFound (alias : string)
| AlreadyExists (alias : string)
| NotDeployed (alias network : string)
| FailedToDeploy.

Inductive Exc : Type :=
| AccountsError (msg : AccountsErrorMsg)
| Abort                          (* click: no answer from the terminal *)
| KeyError (key : string)
| TypeError
| ValueError                     (* int(_, 16) on a malformed literal *)
| MacMismatch                    (* decode_keyfile_json: wrong passphrase *)
| FileNotFoundError
| AttributeError (name : string)
| ProviderError.

Inductive Result (A : Type) : Type :=
| Ok (a : A)
| Raise (e : Exc).
Arguments Ok {A} a.
Arguments Raise {A} e.

(** A method run from state [s] ends in a state and either a value or an
    exception; the state reached is kept in both cases. *)
Definition M (S A : Type) : Type := S -> S * Result A.

Definition ret {S A : Type} (a : A) : M S A := fun s => (s, Ok a).

Definition raise {S A : Type} (e : Exc) : M S A := fun s => (s, Raise e).

Definition bind {S A B : Type} (m : M S A) (k : A -> M S B) : M S B :=
  fun s =>
    match m s with
    | (s', Ok a) => k a s'
    | (s', Raise e) => (s', Raise e)
    end.

Definition gets {S A : Type} (f : S -> A) : M S A := fun s => (s, Ok (f s)).

Definition modify {S : Type} (f : S -> S) : M S unit := fun s => (f s, Ok tt).

Declare Scope meth_scope.
Delimit Scope meth_scope with meth.
Notation "x <- m ;; k" := (bind m (fun x => k))
  (at level 100, m at next level, right associativity) : meth_scope.
Notation "m ;; k" := (bind m (fun _ => k))
  (at level 100, right associativity) : meth_scope.
Local Open Scope meth_scope.

(** Run [m] on the second component of a pair state. *)
Definition on_env {X Env A : Type} (m : M Env A) : M (X * Env) A :=
  fun s => match m s.2 with (env', r) => ((s.1, env'), r) end.

(** Run a method of the object [self] with the current environment; the
    object is local to the call and dropped afterwards. *)
Definition call_fresh {X Obj Env A : Type} (self : Obj) (m : M (Obj * Env) A)
  : M (X * Env) A :=
  fun s => match m (self, s.2) with ((_, env'), r) => ((s.1, env'), r) end.

(** ** Collaborators outside the package *)

(** The receipt of [provider.send_transaction]. *)
Record Receipt : Type := { receipt_contract_address : option string }.

(** What the package takes from [eth_keyfile], [starknet_py], the ecosystem
    and the Python built-ins. [keyfile_crypto k p r] is the
    ["crypto"] object that [create_keyfile_json] builds for key [k] and
    passphrase [p] from the random material [r] (salt and iv);
    [keyfile_decode] is [decode_keyfile_json] on such an object, [None] when
    the MAC does not match. *)
Class Externals : Type := {
  Crypto : Type;
  keyfile_crypto : Z -> string -> Z -> Crypto;
  keyfile_address : Z -> string;
  keyfile_id : Z -> string;
  keyfile_decode : Crypto -> string -> option Z;
  private_to_stark_key : Z -> Z;          (* KeyPair.from_private_key *)
  decode_address : string -> string;      (* network.ecosystem.decode_address *)
  int_base16 : string -> option Z         (* int(s, 16) *)
}.

(** ** The data model *)

Module StarknetAccountDeployment.
Record t : Type := { network_name : string; contract_address : string }.
End StarknetAccountDeployment.
Abbreviation Deployment := StarknetAccountDeployment.t.

Section Data.
Context {E : Externals}.

(** The values found in account data: integers and strings, the
    ["crypto"] object and the list under ["deployments"], each of whose
    items is a two-key object from which a [StarknetAccountDeployment] is
    built. *)
Inductive jvalue : Type :=
| JInt (z : Z)
| JStr (s : string)
| JCrypto (c : Crypto)
| JDeployments (ds : list Deployment).

(** The object of a [StarknetKeyfileAccount]: the path of its key file,
    given by its stem (the alias), and its lock state. *)
Record KeyfileAccount : Type := {
  key_file_path : string;
  locked : bool;
  __cached_key : option Z
}.

(** The world around the container: the key files of the data folder by
    stem, the name of the active network, the receipt (or the exception)
    with which the provider answers the deployment of an account contract
    for a public key, what the terminal will answer to [click.prompt] and
    [click.confirm], and a source of randomness. *)
Record Env : Type := {
  data_folder : gmap string (gmap string jvalue);
  network : string;
  send_transaction : Z -> Result Receipt;
  prompt_answers : list string;
  confirm_answers : list bool;
  entropy : nat -> Z;
  drawn : nat
}.

(** The two dictionaries of the container [StarknetAccountContracts]:
    [ephemeral_accounts] and [cached_accounts]. *)
Record Registry : Type := {
  ephemeral_accounts : gmap string (gmap string jvalue);
  cached_accounts : gmap string KeyfileAccount
}.

(** An account is an object of one of the two classes: a
    [StarknetEphemeralAccount] with its [raw_account_data] and
    [account_key], or a [StarknetKeyfileAccount]. *)
Inductive Account : Type :=
| Ephemeral (raw_account_data : gmap string jvalue) (account_key : string)
| Keyfile (self : KeyfileAccount).
End Data.

Abbreviation Dict := (gmap string jvalue).

Section Updates.
Context {E : Externals}.

Definition set_data_folder (f : gmap string Dict) (env : Env) : Env :=
  {| data_folder := f; network := network env;
     send_transaction := send_transaction env;
     prompt_answers := prompt_answers env;
     confirm_answers := confirm_answers env;
     entropy := entropy env; drawn := drawn env |}.

Definition set_prompt_answers (l : list string) (env : Env) : Env :=
  {| data_folder := data_folder env; network := network env;
     send_transaction := send_transaction env;
     prompt_answers := l; confirm_answers := confirm_answers env;
     entropy := entropy env; drawn := drawn env |}.

Definition set_confirm_answers (l : list bool) (env : Env) : Env :=
  {| data_folder := data_folder env; network := network env;
     send_transaction := send_transaction env;
     prompt_answers := prompt_answers env; confirm_answers := l;
     entropy := entropy env; drawn := drawn env |}.

Definition set_drawn (n : nat) (env : Env) : Env :=
  {| data_folder := data_folder env; network := network env;
     send_transaction := send_transaction env;
     prompt_answers := prompt_answers env;
     confirm_answers := confirm_answers env;
     entropy := entropy env; drawn := n |}.


Definition set_locked (b : bool) (self : KeyfileAccount) : KeyfileAccount :=
  {| key_file_path := key_file_path self; locked := b;
     __cached_key := __cached_key self |}.

Definition set_cached_key (k : option Z) (self : KeyfileAccount)
  : KeyfileAccount :=
  {| key_file_path := key_file_path self; locked := locked self;
     __cached_key := k |}.

Definition set_ephemeral_accounts (m : gmap string Dict) (reg : Registry)
  : Registry :=
  {| ephemeral_accounts := m; cached_accounts := cached_accounts reg |}.

Definition set_cached_accounts (m : gmap string KeyfileAccount)
  (reg : Registry) : Registry :=
  {| ephemeral_accounts := ephemeral_accounts reg; cached_accounts := m |}.

(** [StarknetKeyfileAccount(key_file_path=path)]: a new object is locked
    and holds no key. *)
Definition new_keyfile_account (path : string) : KeyfileAccount :=
  {| key_file_path := path; locked := true; __cached_key := None |}.

(** [d[key]] *)
Definition getitem {S : Type} (d : Dict) (key : string) : M S jvalue :=
  match d !! key with
  | Some v => ret v
  | None => raise (KeyError key)
  end.
End Updates.

(** ** The terminal, the random source and the key-file library *)

Section Collaborators.
Context {E : Externals}.

(** [click.prompt]: the next answer typed at the terminal. One answer
    stands for one call, also when the prompt asks for a confirmation or
    falls back on a default: it is the value the call returns. *)
Definition click_prompt : M Env string :=
  fun env =>
    match prompt_answers env with
    | p :: rest => (set_prompt_answers rest env, Ok p)
    | [] => (env, Raise Abort)
    end.

(** [click.confirm]: the next yes/no answer. *)
Definition click_confirm : M Env bool :=
  fun env =>
    match confirm_answers env with
    | b :: rest => (set_confirm_answers rest env, Ok b)
    | [] => (env, Raise Abort)
    end.

(** The next value of the random source. *)
Definition draw : M Env Z :=
  fun env => (set_drawn (S (drawn env)) env, Ok (entropy env (drawn env))).

(** [get_random_private_key] *)
Definition get_random_private_key : M Env Z := draw.

(** The version-3 key file made for a key and a passphrase from the
    random material [r]. The key goes in and out of the library as bytes;
    it is kept as the integer those bytes spell. *)
Definition keyfile_json (private_key : Z) (passphrase : string) (r : Z)
  : Dict :=
  <["address" := JStr (keyfile_address private_key)]>
    (<["crypto" := JCrypto (keyfile_crypto private_key passphrase r)]>
     (<["id" := JStr (keyfile_id r)]>
      (<["version" := JInt 3]> ∅))).

(** [create_keyfile_json(key_bytes, passphrase_bytes, kdf="scrypt")] *)
Definition create_keyfile_json (private_key : Z) (passphrase : string)
  : M Env Dict :=
  r <- draw ;;
  ret (keyfile_json private_key passphrase r).

(** [decode_keyfile_json(key_file_dict, password_bytes)] *)
Definition decode_keyfile_json {S : Type} (key_file_dict : Dict)
  (passphrase : string) : M S Z :=
  c <- getitem key_file_dict "crypto" ;;
  match c with
  | JCrypto c =>
      match keyfile_decode c passphrase with
      | Some key => ret key
      | None => raise MacMismatch
      end
  | _ => raise TypeError
  end.
End Collaborators.

(** ** [BaseStarknetAccount] *)

Module BaseStarknetAccount.
Section Methods.
Context {E : Externals}.

Definition alias (account : Account) : string :=
  match account with
  | Ephemeral _ account_key => account_key
  | Keyfile self => key_file_path self
  end.

(** [get_account_data]: the dictionary held by an ephemeral account; for
    a key-file account the content of its file, [{}] when there is none. *)
Definition get_account_data (account : Account) : M Env Dict :=
  match account with
  | Ephemeral raw_account_data _ => ret raw_account_data
  | Keyfile self =>
      gets (fun env => default ∅ (data_folder env !! key_file_path self))
  end.

Definition deployments (account : Account) : M Env (list Deployment) :=
  data <- get_account_data account ;;
  ds <- getitem data "deployments" ;;
  match ds with
  | JDeployments ds => ret ds
  | _ => raise TypeError
  end.

Definition contract_address (account : Account) : M Env string :=
  net <- gets network ;;
  ds <- deployments account ;;
  match find (fun d => String.eqb (StarknetAccountDeployment.network_name d) net) ds with
  | Some deployment =>
      ret (decode_address (StarknetAccountDeployment.contract_address deployment))
  | None => raise (AccountsError (NotDeployed (alias account) net))
  end.

Definition get_deployment (account : Account) (network_name : string)
  : M Env (option Deployment) :=
  ds <- deployments account ;;
  ret (find (fun d => str_in (StarknetAccountDeployment.network_name d) network_name) ds).
End Methods.
End BaseStarknetAccount.

(** ** Signing

    [sign_calldata] of [starknet_py] signs a list of field elements with a
    private key. A [SignableMessage] is one field element or a sequence of
    them. *)

Class Signing : Type := {
  Signature : Type;
  sign_calldata : list Z -> Z -> Signature
}.

Inductive SignableMessage : Type :=
| Felt (value : Z)
| Felts (values : list Z).

(** [if not isinstance(msg, (list, tuple)): msg = [msg]] *)
Definition as_calldata (msg : SignableMessage) : list Z :=
  match msg with
  | Felt value => [value]
  | Felts values => values
  end.

(** ** [StarknetEphemeralAccount] *)

Module StarknetEphemeralAccount.
Section Methods.
Context {E : Externals} {G : Signing}.

(** [_get_key]: whatever the account data holds under ["private_key"]. *)
Definition _get_key {S : Type} (raw_account_data : Dict) : M S jvalue :=
  getitem raw_account_data "private_key".

(** [sign_message]; [sign_calldata] needs an integer key. *)
Definition sign_message {S : Type} (raw_account_data : Dict)
  (msg : SignableMessage) : M S Signature :=
  let msg := as_calldata msg in
  key <- _get_key raw_account_data ;;
  match key with
  | JInt key => ret (sign_calldata msg key)
  | _ => raise TypeError
  end.
End Methods.
End StarknetEphemeralAccount.

(** ** [StarknetKeyfileAccount] *)

Module StarknetKeyfileAccount.
Section Methods.
Context {E : Externals}.

(** The state of a method: the object [self] and the environment. *)
Definition St : Type := (KeyfileAccount * Env)%type.

Definition self_ {A : Type} (f : KeyfileAccount -> A) : M St A :=
  gets (fun s => f s.1).

Definition set_self (f : KeyfileAccount -> KeyfileAccount) : M St unit :=
  modify (fun s => (f s.1, s.2)).

Definition alias : M St string := self_ key_file_path.

Definition get_account_data : M St Dict :=
  self <- self_ id ;;
  on_env (BaseStarknetAccount.get_account_data (Keyfile self)).

Definition deployments : M St (list Deployment) :=
  self <- self_ id ;;
  on_env (BaseStarknetAccount.deployments (Keyfile self)).

(** [self.key_file_path.read_text()] followed by [json.loads] *)
Definition read_key_file : M St Dict :=
  path <- self_ key_file_path ;;
  files <- gets (fun s => data_folder s.2) ;;
  match files !! path with
  | Some d => ret d
  | None => raise FileNotFoundError
  end.

(** [self.key_file_path.write_text(json.dumps(account_data))] *)
Definition write_key_file (account_data : Dict) : M St unit :=
  path <- self_ key_file_path ;;
  modify (fun s => (s.1, set_data_folder (<[path := account_data]> (data_folder s.2)) s.2)).

(** [self.key_file_path.unlink()] *)
Definition unlink : M St unit :=
  path <- self_ key_file_path ;;
  files <- gets (fun s => data_folder s.2) ;;
  match files !! path with
  | Some _ =>
      modify (fun s => (s.1, set_data_folder (base.delete path (data_folder s.2)) s.2))
  | None => raise FileNotFoundError
  end.

Definition _get_passphrase_from_prompt : M St string := on_env click_prompt.

Definition __decrypt_key_file (passphrase : string) : M St Z :=
  key_file_dict <- read_key_file ;;
  public_key <- getitem key_file_dict "public_key" ;;
  let key_file_dict := <["address" := public_key]> key_file_dict in
  let key_file_dict := base.delete "public_key" key_file_dict in
  decode_keyfile_json key_file_dict passphrase.

(** [_get_key]. After the prompt the local variable [passphrase] holds a
    string on both paths; [passphrase1] is that variable as the last
    test reads it. *)
Definition _get_key (passphrase : option string) : M St Z :=
  cached <- self_ __cached_key ;;
  is_locked <- self_ locked ;;
  match cached, is_locked with
  | Some key, false => ret key
  | _, _ =>
      match cached with
      | Some _ => set_self (set_cached_key None)
      | None => ret tt
      end ;;
      p <- match passphrase with
           | None => _get_passphrase_from_prompt
           | Some p => ret p
           end ;;
      let passphrase1 : option string := Some p in
      key <- __decrypt_key_file p ;;
      is_locked <- self_ locked ;;
      leave <- (if is_locked
                then match passphrase1 with
                     | Some _ => ret true
                     | None => on_env click_confirm
                     end
                else ret false) ;;
      (if leave : bool
       then set_self (set_locked false) ;; set_self (set_cached_key (Some key))
       else ret tt) ;;
      ret key
  end.

Definition __encrypt_key_file (passphrase : string) (private_key : option Z)
  : M St Dict :=
  private_key <- match private_key with
                 | None => _get_key (Some passphrase)
                 | Some k => ret k
                 end ;;
  on_env (create_keyfile_json private_key passphrase).

(** [write]. In [{**key_file_data, **self.get_account_data(), **kwargs}]
    a later dictionary wins over an earlier one; [∪] on maps prefers its
    left operand. *)
Definition write (passphrase : option string) (private_key : option Z)
  (kwargs : Dict) : M St unit :=
  passphrase <- match passphrase with
                | None => on_env click_prompt
                | Some p => ret p
                end ;;
  key_file_data <- __encrypt_key_file passphrase private_key ;;
  address <- getitem key_file_data "address" ;;
  let key_file_data := <["public_key" := address]> key_file_data in
  let key_file_data := base.delete "address" key_file_data in
  old <- get_account_data ;;
  let account_data := kwargs ∪ (old ∪ key_file_data) in
  write_key_file account_data.

Definition delete (network : string) : M St unit :=
  passphrase <- on_env click_prompt ;;
  __decrypt_key_file passphrase ;;
  ds <- deployments ;;
  let remaining_deployments :=
    filter (fun d => str_in (StarknetAccountDeployment.network_name d) network = false) ds in
  match remaining_deployments with
  | [] => unlink
  | _ => write (Some passphrase) None
           (<["deployments" := JDeployments remaining_deployments]> ∅)
  end.

Definition change_password : M St unit :=
  set_self (set_locked true) ;;
  original_passphrase <- _get_passphrase_from_prompt ;;
  private_key <- _get_key (Some original_passphrase) ;;
  write None (Some private_key) ∅.

Definition add_deployment (network_name : string) (contract_address : string)
  : M St unit :=
  passphrase <- _get_passphrase_from_prompt ;;
  let network_name := _clean_network_name network_name in
  ds <- deployments ;;
  let kept :=
    filter (fun d => str_in (StarknetAccountDeployment.network_name d) network_name = false) ds in
  let new_deployment :=
    {| StarknetAccountDeployment.network_name := network_name;
       StarknetAccountDeployment.contract_address := contract_address |} in
  let deployments := (kept ++ [new_deployment])%list in
  private_key <- _get_key (Some passphrase) ;;
  write (Some passphrase) (Some private_key)
    (<["deployments" := JDeployments deployments]> ∅).
End Methods.

Section SigningMethods.
Context {E : Externals} {G : Signing}.

Definition sign_message (msg : SignableMessage) (passphrase : option string)
  : M St Signature :=
  let msg := as_calldata msg in
  private_key <- _get_key passphrase ;;
  ret (sign_calldata msg private_key).
End SigningMethods.
End StarknetKeyfileAccount.

(** A [for] loop over a list, in the monad: the results in order. *)
Fixpoint for_each {S A B : Type} (f : A -> M S B) (l : list A) : M S (list B) :=
  match l with
  | [] => ret []
  | a :: l' =>
      b <- f a ;;
      bs <- for_each f l' ;;
      ret (b :: bs)
  end.

(** ** [StarknetAccountContracts] *)

(** The [private_key] argument of [import_account]: [Union[int, str]]. *)
Inductive PrivateKeyArg : Type :=
| KeyInt (key : Z)
| KeyStr (literal : string).

Module StarknetAccountContracts.
Section Methods.
Context {E : Externals}.

(** The state of a method: the two dictionaries of the container and the
    environment. *)
Definition St : Type := (Registry * Env)%type.

(** Run a method of [account], the object cached under [alias]; what the
    method does to the object is seen through the cache. *)
Definition call_cached {A : Type} (alias : string) (account : KeyfileAccount)
  (m : M StarknetKeyfileAccount.St A) : M St A :=
  fun s =>
    match m (account, s.2) with
    | ((account', env'), r) =>
        ((set_cached_accounts (<[alias := account']> (cached_accounts s.1)) s.1, env'), r)
    end.

(** [self.provider.network.name] *)
Definition provider_network_name : M St string :=
  gets (fun s => network s.2).

(** [self.data_folder.glob("*.json")], each path given by its stem, in the
    order in which the map lists them (the order of a glob is not fixed). *)
Definition _key_file_paths : M St (list string) :=
  gets (fun s => (map_to_list (data_folder s.2)).*1).

(** [aliases]: the keys of [ephemeral_accounts], then the stems of the key
    files. *)
Definition aliases : M St (list string) :=
  ephemeral <- gets (fun s => (map_to_list (ephemeral_accounts s.1)).*1) ;;
  key_files <- _key_file_paths ;;
  ret (ephemeral ++ key_files)%list.

Definition __len__ : M St nat :=
  key_files <- _key_file_paths ;;
  ret (length key_files).

Definition load_key_file_account (alias : string) : M St KeyfileAccount :=
  cached <- gets (fun s => cached_accounts s.1) ;;
  match cached !! alias with
  | Some account => ret account
  | None =>
      key_files <- _key_file_paths ;;
      match find (fun stem => String.eqb stem alias) key_files with
      | Some key_file_path =>
          let account := new_keyfile_account key_file_path in
          modify (fun s => (set_cached_accounts (<[alias := account]> (cached_accounts s.1)) s.1, s.2)) ;;
          ret account
      | None => raise (AccountsError (NotFound alias))
      end
  end.

Definition load (alias : string) : M St Account :=
  ephemeral <- gets (fun s => ephemeral_accounts s.1) ;;
  match ephemeral !! alias with
  | Some account_data => ret (Ephemeral account_data alias)
  | None =>
      account <- load_key_file_account alias ;;
      ret (Keyfile account)
  end.

(** The two characters of the string literal passed to [strip] in
    [import_account]: the single and the double quote. The key file of
    [import_account] is [data_folder.joinpath(f"{alias}.json")], given by
    its stem [key_file_stem alias]; [alias] is taken to be a file name
    ([is_file_name]). *)
Definition quote_chars : list ascii := [ascii_of_nat 39; ascii_of_nat 34].

Definition import_account (alias network_name contract_address : string)
  (private_key : PrivateKeyArg) : M St unit :=
  private_key <- match private_key with
                 | KeyStr s =>
                     match int_base16 (strip quote_chars s) with
                     | Some k => ret k
                     | None => raise ValueError
                     end
                 | KeyInt k => ret k
                 end ;;
  let network_name := _clean_network_name network_name in
  let public_key := private_to_stark_key private_key in
  let deployment_data : Dict :=
    <["deployments" :=
        JDeployments
          [{| StarknetAccountDeployment.network_name := network_name;
              StarknetAccountDeployment.contract_address := contract_address |}]]> ∅ in
  if String.eqb network_name LOCAL_NETWORK_NAME
  then
    let account_data : Dict :=
      deployment_data ∪
        (<["public_key" := JInt public_key]>
         (<["private_key" := JInt private_key]> ∅)) in
    modify (fun s => (set_ephemeral_accounts (<[alias := account_data]> (ephemeral_accounts s.1)) s.1, s.2))
  else
    let path := key_file_stem alias in
    let new_account := new_keyfile_account path in
    call_fresh new_account
      (StarknetKeyfileAccount.write None (Some private_key) deployment_data).

Definition deploy_account (alias : string) (private_key : option Z)
  : M St string :=
  known <- aliases ;;
  if existsb (String.eqb alias) known
  then raise (AccountsError (AlreadyExists alias))
  else
    network_name <- provider_network_name ;;
    private_key <- match private_key with
                   | Some k => if Z.eqb k 0 then on_env get_random_private_key else ret k
                   | None => on_env get_random_private_key
                   end ;;
    let public_key := private_to_stark_key private_key in
    response <- gets (fun s => send_transaction s.2 public_key) ;;
    match response with
    | Raise e => raise e
    | Ok receipt =>
        match receipt_contract_address receipt with
        | None => raise (AccountsError FailedToDeploy)
        | Some contract_address =>
            if String.eqb contract_address ""
            then raise (AccountsError FailedToDeploy)
            else
              import_account alias network_name contract_address (KeyInt private_key) ;;
              ret contract_address
        end
    end.

Definition delete_account (alias : string) (network : option string)
  : M St unit :=
  network <- match network with
             | Some n => if String.eqb n "" then provider_network_name else ret n
             | None => provider_network_name
             end ;;
  ephemeral <- gets (fun s => ephemeral_accounts s.1) ;;
  match ephemeral !! alias with
  | Some _ =>
      modify (fun s => (set_ephemeral_accounts (base.delete alias (ephemeral_accounts s.1)) s.1, s.2))
  | None =>
      account <- load_key_file_account alias ;;
      call_cached alias account (StarknetKeyfileAccount.delete network)
  end.

(** [accounts], iterated to its end: the ephemeral accounts, then one
    key-file account per key file, taken from the cache or made and put
    there. *)
Definition accounts : M St (list Account) :=
  ephemeral <- gets (fun s => map_to_list (ephemeral_accounts s.1)) ;;
  let ephemeral_objects :=
    map (fun item : string * Dict => Ephemeral item.2 item.1) ephemeral in
  key_files <- _key_file_paths ;;
  key_file_objects <-
    for_each
      (fun key_file_path : string =>
         cached <- gets (fun s : St => cached_accounts s.1) ;;
         match cached !! key_file_path with
         | Some account => ret (Keyfile account)
         | None =>
             let account := new_keyfile_account key_file_path in
             modify (fun s : St =>
                       (set_cached_accounts
                          (<[key_file_path := account]> (cached_accounts s.1)) s.1,
                        s.2)) ;;
             ret (Keyfile account)
         end)
      key_files ;;
  ret (ephemeral_objects ++ key_file_objects)%list.
End Methods.
End StarknetAccountContracts.

(** ** Calling [add_deployment] on an account

    [account.add_deployment(network_name, contract_address)] on an object of
    either class. The method is defined by [StarknetKeyfileAccount] alone:
    neither [StarknetEphemeralAccount] nor [BaseStarknetAccount] has an
    attribute of that name, so the lookup fails on an ephemeral account. *)

Section Dispatch.
Context {E : Externals}.

Definition call_add_deployment (network_name contract_address : string)
  : M (Account * Env) unit :=
  fun s =>
    match s.1 with
    | Keyfile self =>
        match StarknetKeyfileAccount.add_deployment network_name contract_address
                (self, s.2) with
        | ((self', env'), r) => ((Keyfile self', env'), r)
        end
    | Ephemeral _ _ => (s, Raise (AttributeError "add_deployment"))
    end.
End Dispatch.

(** ** Summaries

    Closed forms of what the methods above compute, used to state how a
    method runs. *)

Module KA := StarknetKeyfileAccount.
Module AC := StarknetAccountContracts.

Section Summaries.
Context {E : Externals}.

(** The key-file part of what [write] stores: the fresh key-file data
    once its ["address"] has been re-labelled ["public_key"]. *)
Definition relabelled (k : Z) (p : string) (r : Z) : Dict :=
  base.delete "address"
    (<["public_key" := JStr (keyfile_address k)]> (keyfile_json k p r)).

(** What [__decrypt_key_file] yields on the content of the key file. *)
Definition decrypt_outcome (file : option Dict) (passphrase : string)
  : Result Z :=
  match file with
  | None => Raise FileNotFoundError
  | Some d =>
      match d !! "public_key" with
      | None => Raise (KeyError "public_key")
      | Some _ =>
          match d !! "crypto" with
          | None => Raise (KeyError "crypto")
          | Some (JCrypto c) =>
              match keyfile_decode c passphrase with
              | Some key => Ok key
              | None => Raise MacMismatch
              end
          | Some _ => Raise TypeError
          end
      end
  end.

(** What the [deployments] property makes of account data. *)
Definition deployments_of (data : Dict) : Result (list Deployment) :=
  match data !! "deployments" with
  | None => Raise (KeyError "deployments")
  | Some (JDeployments ds) => Ok ds
  | Some _ => Raise TypeError
  end.

(** The data [get_account_data] returns. *)
Definition account_data (account : Account) (env : Env) : Dict :=
  match account with
  | Ephemeral raw_account_data _ => raw_account_data
  | Keyfile self => default ∅ (data_folder env !! key_file_path self)
  end.

(** The content [write] gives the key file: [kwargs] over the old content
    over the fresh key-file data. *)
Definition stored (kwargs : Dict) (old : option Dict) (k : Z) (p : string) (r : Z) : Dict :=
  kwargs ∪ (default ∅ old ∪ relabelled k p r).

(** The integer [import_account] takes for its [private_key] argument. *)
Definition key_of (private_key : PrivateKeyArg) : option Z :=
  match private_key with
  | KeyInt k => Some k
  | KeyStr s => int_base16 (strip AC.quote_chars s)
  end.

(** The [deployment_data] of [import_account]. *)
Definition deployment_data (network_name contract_address : string) : Dict :=
  <["deployments" :=
      JDeployments
        [{| StarknetAccountDeployment.network_name := network_name;
            StarknetAccountDeployment.contract_address := contract_address |}]]> ∅.

(** The [account_data] of an ephemeral account made by [import_account]. *)
Definition ephemeral_data (private_key : Z) (network_name contract_address : string)
  : Dict :=
  deployment_data network_name contract_address ∪
    (<["public_key" := JInt (private_to_stark_key private_key)]>
     (<["private_key" := JInt private_key]> ∅)).
End Summaries.

(** ** Invariants *)

Section Invariants.
Context {E : Externals}.

(** An unlocked account object holds its key. *)
Definition lock_inv (self : KeyfileAccount) : Prop :=
  locked self = false -> is_Some (__cached_key self).

(** The object cached under an alias is the one of the key file of that
    alias. *)
Definition cache_wf (reg : Registry) : Prop :=
  forall (alias : string) (account : KeyfileAccount),
    cached_accounts reg !! alias = Some account -> key_file_path account = alias.

(** No two deployment records for the same network name. *)
Definition unique_networks (ds : list Deployment) : Prop :=
  NoDup (StarknetAccountDeployment.network_name <$> ds).
End Invariants.

(** ** A concrete instance of the collaborators

    Used to run the model on explicit inputs: a key file whose ["crypto"]
    object opens under exactly the passphrase it was made with, a
    hexadecimal reader for [int(_, 16)], and environments whose provider
    deploys every account at one address. *)

Module Sample.
Record sealed : Type := { sealed_key : Z; sealed_with : string; sealed_salt : Z }.

Definition seal (k : Z) (p : string) (r : Z) : sealed :=
  {| sealed_key := k; sealed_with := p; sealed_salt := r |}.

Definition unseal (c : sealed) (p : string) : option Z :=
  if String.eqb p (sealed_with c) then Some (sealed_key c) else None.

Definition hex_table : list (ascii * Z) :=
  [("0"%char, 0); ("1"%char, 1); ("2"%char, 2); ("3"%char, 3);
   ("4"%char, 4); ("5"%char, 5); ("6"%char, 6); ("7"%char, 7);
   ("8"%char, 8); ("9"%char, 9); ("a"%char, 10); ("b"%char, 11);
   ("c"%char, 12); ("d"%char, 13); ("e"%char, 14); ("f"%char, 15);
   ("A"%char, 10); ("B"%char, 11); ("C"%char, 12); ("D"%char, 13);
   ("E"%char, 14); ("F"%char, 15)].

Definition hex_digit (c : ascii) : option Z :=
  match find (fun e => Ascii.eqb c e.1) hex_table with
  | Some e => Some e.2
  | None => None
  end.

Fixpoint hex_digits (acc : Z) (s : string) : option Z :=
  match s with
  | EmptyString => Some acc
  | String c s' =>
      match hex_digit c with
      | Some d => hex_digits (16 * acc + d) s'
      | None => None
      end
  end.

(** Hexadecimal literals, with or without the 0x prefix. *)
Definition parse_hex (s : string) : option Z :=
  let digits :=
    match s with
    | String c1 (String c2 rest) =>
        if Ascii.eqb c1 "0" && Ascii.eqb c2 "x" then rest else s
    | _ => s
    end in
  match digits with
  | EmptyString => None
  | _ => hex_digits 0 digits
  end.

Definition externals : Externals :=
  {| Crypto := sealed;
     keyfile_crypto := seal;
     keyfile_address := fun _ => "00";
     keyfile_id := fun _ => "id";
     keyfile_decode := unseal;
     private_to_stark_key := fun k => 2 * k;
     decode_address := fun a => a;
     int_base16 := parse_hex |}.

(** The key file of alias bob: key 1 under the passphrase old, deployed
    on testnet. *)
Definition bob_file : gmap string (@jvalue externals) :=
  <["public_key" := JStr "00"]>
    (<["crypto" := @JCrypto externals (seal 1 "old" 7)]>
     (<["id" := JStr "id"]>
      (<["version" := JInt 3]>
       (<["deployments" :=
            JDeployments
              [{| StarknetAccountDeployment.network_name := "testnet";
                  StarknetAccountDeployment.contract_address := "0xAB" |}]]> ∅)))).

Definition env (files : gmap string (gmap string (@jvalue externals)))
  (current : string)
  (answers : list string) (confirms : list bool) : @Env externals :=
  {| data_folder := files; network := current;
     send_transaction := fun _ => Ok {| receipt_contract_address := Some "0xCD" |};
     prompt_answers := answers; confirm_answers := confirms;
     entropy := fun _ => 7; drawn := 0 |}.

Definition registry (ephemeral : gmap string (gmap string (@jvalue externals)))
  : @Registry externals :=
  {| ephemeral_accounts := ephemeral; cached_accounts := ∅ |}.

(** The data of an ephemeral account deployed on the local network. *)
Definition eve_data : gmap string (@jvalue externals) :=
  <["public_key" := JInt 10]>
    (<["private_key" := JInt 5]>
     (<["deployments" :=
          JDeployments
            [{| StarknetAccountDeployment.network_name := "local";
                StarknetAccountDeployment.contract_address := "0x1" |}]]> ∅)).


(** A signature that shows what was signed and with which key. *)
Definition signing : Signing :=
  {| Signature := (list Z * Z)%type; sign_calldata := fun msg key => (msg, key) |}.
End Sample.

(** * The helpers of [ape_starknet/_utils.py] *)

(** ** Chain ids: [get_chain_id] *)

(** The members of the enumeration [StarknetChainId]. *)
Inductive StarknetChainId : Type := MAINNET | TESTNET.

(** The argument of [get_chain_id]: a network name or a number. *)
Inductive NetworkId : Type :=
| NetworkName (name : string)
| NetworkNumber (number : Z).

Section ChainIds.
(** [member.value]. *)
Context (value : StarknetChainId -> Z).

(** [StarknetChainId(number)]: the first member, in the order of the
    definition, that has this value; [ValueError] when none has. *)
Definition chain_id_of_value (number : Z) : Result StarknetChainId :=
  if number =? value MAINNET then Ok MAINNET
  else if number =? value TESTNET then Ok TESTNET
  else Raise ValueError.

(** The table [NETWORKS]: chain id and network id by name. *)
Definition NETWORKS : gmap string (Z * Z) :=
  {[ "mainnet" := (value MAINNET, value MAINNET);
     "testnet" := (value TESTNET, value TESTNET) ]}.

Definition get_chain_id (network_id : NetworkId) : Result StarknetChainId :=
  match network_id with
  | NetworkNumber number => chain_id_of_value number
  | NetworkName name =>
      if String.eqb name LOCAL_NETWORK_NAME then Ok TESTNET
      else
        match NETWORKS !! name with
        | None => Raise ValueError
        | Some entry => chain_id_of_value entry.1
        end
  end.
End ChainIds.

(** ** Letter case of ASCII strings *)

Definition in_range (lo hi c : ascii) : bool :=
  (N_of_ascii lo <=? N_of_ascii c)%N && (N_of_ascii c <=? N_of_ascii hi)%N.

(** [str.lower] and [str.upper] on ASCII text, one character at a time.
    They are applied to hexadecimal literals only: the text [to_hex] makes
    of an address, and its characters. The letter cases that a pattern
    compiled with [re.ASCII] ignores are these as well. *)
Definition lower_char (c : ascii) : ascii :=
  if in_range "A" "Z" c then ascii_of_N (N_of_ascii c + 32) else c.

Definition upper_char (c : ascii) : ascii :=
  if in_range "a" "z" c then ascii_of_N (N_of_ascii c - 32) else c.

Fixpoint map_chars (f : ascii -> ascii) (s : string) : string :=
  match s with
  | EmptyString => EmptyString
  | String c s' => String (f c) (map_chars f s')
  end.

Definition lower (s : string) : string := map_chars lower_char s.

(** ** Regular expressions: [re.compile] and [fullmatch] *)

(** The patterns that [_HEX_ADDRESS_REG_EXP] is made of. A character class
    is the set of characters it accepts. *)
Inductive regex : Type :=
| Never
| Eps
| Class (accepts : ascii -> bool)
| Seq (r1 r2 : regex)
| Alt (r1 r2 : regex)
| Star (r : regex).

(** Does the pattern match the empty string? *)
Fixpoint nullable (r : regex) : bool :=
  match r with
  | Never => false
  | Eps => true
  | Class _ => false
  | Seq r1 r2 => nullable r1 && nullable r2
  | Alt r1 r2 => nullable r1 || nullable r2
  | Star _ => true
  end.

(** What is left of the pattern after the character [c]. *)
Fixpoint derivative (c : ascii) (r : regex) : regex :=
  match r with
  | Never => Never
  | Eps => Never
  | Class accepts => if accepts c then Eps else Never
  | Seq r1 r2 =>
      if nullable r1
      then Alt (Seq (derivative c r1) r2) (derivative c r2)
      else Seq (derivative c r1) r2
  | Alt r1 r2 => Alt (derivative c r1) (derivative c r2)
  | Star r1 => Seq (derivative c r1) (Star r1)
  end.

(** [pattern.fullmatch(s) is not None]. *)
Fixpoint fullmatch (r : regex) (s : string) : bool :=
  match s with
  | EmptyString => nullable r
  | String c s' => fullmatch (derivative c r) s'
  end.

(** A character class under [re.IGNORECASE | re.ASCII]: a character is
    accepted when one of its two cases is. *)
Definition ignore_case (accepts : ascii -> bool) (c : ascii) : bool :=
  accepts (lower_char c) || accepts (upper_char c).

(** [x?]. *)
Definition Optional (r : regex) : regex := Alt r Eps.

(** The pattern [(0x)?[0-9a-f]*] compiled with [re.IGNORECASE | re.ASCII]. *)
Definition _HEX_ADDRESS_REG_EXP : regex :=
  Seq (Optional (Seq (Class (ignore_case (Ascii.eqb "0")))
                     (Class (ignore_case (Ascii.eqb "x")))))
      (Star (Class (ignore_case (fun c => in_range "0" "9" c || in_range "a" "f" c)))).

(** A Python value as [is_text] sees it. *)
Inductive PyValue : Type :=
| Text (s : string)
| NotText.

Definition is_hex_address (v : PyValue) : bool :=
  match v with
  | NotText => false
  | Text s => fullmatch _HEX_ADDRESS_REG_EXP s
  end.

(** ** Checksummed addresses: [to_checksum_address] *)

(** [eth_utils]: [is_0x_prefixed], [remove_0x_prefix] and [add_0x_prefix]. *)
Definition is_0x_prefixed (s : string) : bool :=
  String.prefix "0x" s || String.prefix "0X" s.

Fixpoint drop_chars (n : nat) (s : string) : string :=
  match n, s with
  | O, _ => s
  | S n', EmptyString => EmptyString
  | S n', String _ s' => drop_chars n' s'
  end.

Definition remove_0x_prefix (s : string) : string :=
  if is_0x_prefixed s then drop_chars 2 s else s.

Definition add_0x_prefix (s : string) : string :=
  if is_0x_prefixed s then s else "0x" +:+ s.

(** [int(c, 16)] for a single character. *)
Definition int16 (c : ascii) : option Z :=
  if in_range "0" "9" c then Some (Z.of_N (N_of_ascii c) - 48)
  else if in_range "a" "f" c then Some (Z.of_N (N_of_ascii c) - 87)
  else if in_range "A" "F" c then Some (Z.of_N (N_of_ascii c) - 55)
  else None.

(** The exceptions that leave [to_checksum_address]: [AddressError],
    the [IndexError] of [address_hash[i]], and those that pass through. *)
Inductive ChecksumExc : Type :=
| AddressError
| IndexError
| Uncaught (e : Exc).

Inductive Checksummed : Type :=
| Returns (address : string)
| Raises (e : ChecksumExc).

(** What [to_checksum_address] takes from [eth_utils]:
    [hexstr_if_str (to_hex, address)] and [encode_hex (keccak (text=s))]. *)
Class AddressLibrary : Type := {
  RawAddress : Type;
  hexstr_if_str_to_hex : RawAddress -> Result string;
  keccak_hex : string -> string;
}.

(** The characters joined by the generator, from index [i] on:
    [hex_address] and [address_hash] are what is left of the two strings at
    that index. *)
Fixpoint checksum_chars (hex_address address_hash : string) : Checksummed :=
  match hex_address with
  | EmptyString => Returns EmptyString
  | String c hex_rest =>
      match address_hash with
      | EmptyString => Raises IndexError
      | String h hash_rest =>
          match int16 h with
          | None => Raises (Uncaught ValueError)
          | Some v =>
              match checksum_chars hex_rest hash_rest with
              | Returns joined =>
                  Returns (String (if 7 <? v then upper_char c else c) joined)
              | Raises e => Raises e
              end
          end
      end
  end.

Section Checksum.
Context {L : AddressLibrary}.

Definition to_checksum_address (address : RawAddress) : Checksummed :=
  match hexstr_if_str_to_hex address with
  | Raise (AttributeError _) => Raises AddressError
  | Raise e => Raises (Uncaught e)
  | Ok hex =>
      let hex_address := lower hex in
      let cleaned_address := remove_0x_prefix hex_address in
      let address_hash := keccak_hex cleaned_address in
      match checksum_chars (drop_chars 2 hex_address) (drop_chars 2 address_hash) with
      | Returns joined => Returns (add_0x_prefix joined)
      | Raises e => Raises e
      end
  end.
End Checksum.

(** ** Client errors: [handle_client_errors] *)

(** An exception as the decorator looks at it: whether it is a
    [BadRequest], its attribute [text] when it has one, and [str(err)]. *)
Record Caught : Type := {
  is_bad_request : bool;
  err_text : option string;
  err_str : string;
}.

(** What the decorated function does: return or raise. *)
Inductive Attempt (A : Type) : Type :=
| Returned (result : A)
| Threw (err : Caught).
Arguments Returned {A} result.
Arguments Threw {A} err.

(** The two exceptions the decorator raises. *)
Inductive ClientError : Type :=
| ProviderErrorOf (message : string)
| VirtualMachineError (base_err : Caught).

Inductive Handled (A : Type) : Type :=
| Passed (result : A)
| Failed (e : ClientError).
Arguments Passed {A} result.
Arguments Failed {A} e.

(** A result: a dictionary of JSON objects, or anything else. *)
Inductive Response (A : Type) : Type :=
| Plain (a : A)
| Object (fields : gmap string (gmap string string)).
Arguments Plain {A} a.
Arguments Object {A} fields.

(** Python truthiness of the two kinds of values met here. *)
Definition truthy_dict {V : Type} (d : gmap string V) : bool :=
  bool_decide (d <> ∅).

Definition truthy_str (s : string) : bool :=
  negb (String.eqb s "").

(** [result["error"].get("message") or "Transaction failed"], when
    [result] is a dictionary with a truthy ["error"]. *)
Definition error_message {A : Type} (result : Response A) : option string :=
  match result with
  | Plain _ => None
  | Object fields =>
      match fields !! "error" with
      | Some error =>
          if truthy_dict error then
            match error !! "message" with
            | Some message =>
                Some (if truthy_str message then message else "Transaction failed")
            | None => Some "Transaction failed"
            end
          else None
      | None => None
      end
  end.

(** [ProviderError(message)] as an exception that is caught again. *)
Definition provider_error (message : string) : Caught :=
  {| is_bad_request := false; err_text := None; err_str := message |}.

(** The two [except] clauses. *)
Definition translate (err : Caught) : ClientError :=
  if is_bad_request err then
    ProviderErrorOf (match err_text err with
                     | Some text => text
                     | None => err_str err
                     end)
  else if str_in "rejected" (err_str err) then VirtualMachineError err
  else ProviderErrorOf (err_str err).

(** The decorator. The [raise ProviderError(message)] for an error response
    sits inside the [try], so the clause [except Exception] handles it like
    any exception of the decorated function. *)
Definition handle_client_errors {S A : Type} (f : S -> S * Attempt (Response A))
  : S -> S * Handled (Response A) :=
  fun s =>
    match f s with
    | (s', Returned result) =>
        match error_message result with
        | Some message => (s', Failed (translate (provider_error message)))
        | None => (s', Passed result)
        end
    | (s', Threw err) => (s', Failed (translate err))
    end.

(** ** What the patterns and the digits mean *)

(** The words a pattern stands for. *)
Fixpoint lang (r : regex) (w : list ascii) : Prop :=
  match r with
  | Never => False
  | Eps => w = []
  | Class accepts => exists c : ascii, w = [c] /\ accepts c = true
  | Seq r1 r2 =>
      exists w1 w2 : list ascii, w = (w1 ++ w2)%list /\ lang r1 w1 /\ lang r2 w2
  | Alt r1 r2 => lang r1 w \/ lang r2 w
  | Star r1 =>
      exists ws : list (list ascii), w = concat ws /\ Forall (lang r1) ws
  end.

(** The twenty-two hexadecimal digits. *)
Definition is_hex_digit (c : ascii) : bool :=
  existsb (Ascii.eqb c) (list_ascii_of_string "0123456789abcdefABCDEF").

Fixpoint all_hex (s : string) : bool :=
  match s with
  | EmptyString => true
  | String c s' => is_hex_digit c && all_hex s'
  end.

(** * The token manager of [ape_starknet/tokens.py] *)

(** The exceptions met in [TokenManager]: the [KeyError] of a dictionary of
    the manager, [ContractTypeNotFoundError] with the address it was given
    ([None] when the token has no address on the network),
    [StarknetProviderError] for a receiver of no handled type, the
    [UnboundLocalError] of a local variable read before it is assigned, the
    [IndexError] of [result[0]], and the exceptions of the calls that leave
    the package. *)
Inductive TokenExc : Type :=
| MissingKey (key : string)
| ContractTypeNotFoundError (address : option string)
| StarknetProviderError
| UnboundLocalError (name : string)
| EmptyResult
| FromOutside (e : Exc).

Inductive Outcome (A : Type) : Type :=
| Done (a : A)
| Fault (e : TokenExc).
Arguments Done {A} a.
Arguments Fault {A} e.

Definition outcome_of {A : Type} (r : Result A) : Outcome A :=
  match r with
  | Ok a => Done a
  | Raise e => Fault (FromOutside e)
  end.

(** A sender or a receiver: a number, a string, or an object, which may
    have the attribute [address_int]. *)
Inductive Party : Type :=
| PartyInt (n : Z)
| PartyStr (address : string)
| PartyObject (address_int : option Z).

(** The first argument of [get_balance]: an [Address] object or the
    address itself. *)
Inductive Holder : Type :=
| HolderObject (address : string)
| HolderAddress (address : string).

(** What a call of [balanceOf] gives: a number, or a tuple or list. *)
Inductive CallResult : Type :=
| Number (n : Z)
| Sequence (items : list Z).

(** What the token manager takes from outside: the addresses
    [decode_address] gives for [FeeToken.ADDRESS], [FEE_CONTRACT_ADDRESS]
    and [TEST_TOKEN_ADDRESS]; [decode_address] on numbers and
    [encode_address]; the network behind the provider, on which
    [balanceOf] is a read-only call; the call of [transfer], which sends a
    transaction and in doing so may change the balance cache of the token
    manager; the account container, asked for an account by address; and
    [str.lower], which on the names of tokens, any text, follows the case
    tables of Unicode. *)
Class TokenExternals : Type := {
  World : Type;
  TransferResult : Type;
  str_lower : string -> string;
  local_eth : string;
  live_eth : string;
  live_token : string;
  decode_address_int : Z -> string;
  encode_address : string -> Z;
  balanceOf : string -> string -> World -> Result CallResult;
  contract_transfer :
    string -> Z -> Z -> Party -> World * gmap string Z
    -> (World * gmap string Z) * Result TransferResult;
  account_contracts_getitem : Party -> World -> Result Party
}.

Module TokenManager.
Section Methods.
Context {E : Externals} {X : TokenExternals}.

(** The manager and what it works on: its two dictionaries, whether the
    cached property [_base_token_address_map] has been computed, the
    contract types it has put into [chain_manager.contracts] (by address,
    the name of the contract type), the name of the active network and the
    network itself. *)
Record St : Type := {
  additional_tokens : gmap string (gmap string string);
  local_balance_cache : gmap string Z;
  base_map_computed : bool;
  contracts : gmap string string;
  network_name : string;
  world : World
}.

Definition set_additional_tokens (v : gmap string (gmap string string)) (s : St) : St :=
  {| additional_tokens := v; local_balance_cache := local_balance_cache s;
     base_map_computed := base_map_computed s; contracts := contracts s;
     network_name := network_name s; world := world s |}.

Definition set_local_balance_cache (v : gmap string Z) (s : St) : St :=
  {| additional_tokens := additional_tokens s; local_balance_cache := v;
     base_map_computed := base_map_computed s; contracts := contracts s;
     network_name := network_name s; world := world s |}.

Definition set_world (v : World) (s : St) : St :=
  {| additional_tokens := additional_tokens s;
     local_balance_cache := local_balance_cache s;
     base_map_computed := base_map_computed s; contracts := contracts s;
     network_name := network_name s; world := v |}.

(** The first evaluation of [_base_token_address_map] registers the
    contract type. *)
Definition register_fee_token (s : St) : St :=
  {| additional_tokens := additional_tokens s;
     local_balance_cache := local_balance_cache s;
     base_map_computed := true;
     contracts :=
       <[(if String.eqb (network_name s) LOCAL_NETWORK_NAME
          then local_eth else live_eth) := "ERC20"]> (contracts s);
     network_name := network_name s; world := world s |}.

(** Methods of the manager: state in, state and outcome out. *)
Definition T (A : Type) : Type := St -> St * Outcome A.

Definition and_then {A B : Type} (m : T A) (k : A -> T B) : T B :=
  fun s =>
    match m s with
    | (s', Done a) => k a s'
    | (s', Fault e) => (s', Fault e)
    end.

Definition done_with {A : Type} (a : A) : T A := fun s => (s, Done a).

Definition fault {A : Type} (e : TokenExc) : T A := fun s => (s, Fault e).

(** The value of [_base_token_address_map]. *)
Definition base_token_address_map : gmap string (gmap string string) :=
  {[ "eth" := {[ "local" := local_eth; "mainnet" := live_eth; "testnet" := live_eth ]};
     "test_token" := {[ "testnet" := live_token; "mainnet" := live_token ]} ]}.

(** A cached property: computed at the first use only. *)
Definition first_use (s : St) : St :=
  if base_map_computed s then s else register_fee_token s.

Definition _base_token_address_map : T (gmap string (gmap string string)) :=
  fun s => (first_use s, Done base_token_address_map).

(** The merged dictionary: the entries of [additional_tokens] replace
    those of the base map that have the same name. *)
Definition token_address_map : T (gmap string (gmap string string)) :=
  and_then _base_token_address_map (fun base s =>
  (s, Done (additional_tokens s ∪ base))).

(** [self[token]]: the contract instance, given by its address. *)
Definition __getitem__ (token : string) : T string :=
  fun s =>
  let network := network_name s in
  and_then token_address_map (fun map =>
  match map !! str_lower token with
  | None => fault (MissingKey (str_lower token))
  | Some networks =>
      match networks !! network with
      | None => fault (ContractTypeNotFoundError None)
      | Some contract_address =>
          if truthy_str contract_address then done_with contract_address
          else fault (ContractTypeNotFoundError (Some contract_address))
      end
  end) s.

Definition is_token (address : string) : T bool :=
  fun s =>
  let network := network_name s in
  and_then token_address_map (fun map =>
  done_with (existsb (fun entry => bool_decide (entry.2 !! network = Some address))
                     (map_to_list map))) s.

Definition add_token (name network address : string) : T unit :=
  fun s =>
    let networks := default ∅ (additional_tokens s !! name) in
    (set_additional_tokens
       (<[name := <[network := address]> networks]> (additional_tokens s)) s,
     Done tt).

Definition _get_balance (account token : string) : T Z :=
  and_then (__getitem__ token) (fun contract =>
  and_then (fun s => (s, outcome_of (balanceOf contract account (world s)))) (fun result =>
  match result with
  | Sequence [low; high] => done_with (Z.shiftl high 128 + low)
  | Sequence (first :: _) => done_with first
  | Sequence [] => fault EmptyResult
  | Number n => done_with n
  end)).

(** [account.address] for an [Address], the account itself otherwise. *)
Definition holder_address (account : Holder) : string :=
  match account with
  | HolderObject address => address
  | HolderAddress address => address
  end.

Definition get_balance (account : Holder) (token : string) : T Z :=
  let address := holder_address account in
  fun s =>
  if negb (String.eqb (network_name s) LOCAL_NETWORK_NAME)
  then _get_balance address token s
  else
    and_then
      (fun s =>
         match local_balance_cache s !! address with
         | Some _ => (s, Done tt)
         | None =>
             and_then (_get_balance address "eth") (fun balance s =>
             (set_local_balance_cache
                (<[address := balance]> (local_balance_cache s)) s, Done tt)) s
         end)
      (fun _ s =>
         match local_balance_cache s !! address with
         | Some balance => (s, Done balance)
         | None => (s, Fault (MissingKey address))
         end) s.

(** [self.account_contracts[sender]] for a number or a string, the
    object itself otherwise. *)
Definition sender_account_of (sender : Party) : T Party :=
  match sender with
  | PartyObject _ => done_with sender
  | _ => fun s => (s, outcome_of (account_contracts_getitem sender (world s)))
  end.

Definition transfer (sender receiver : Party) (amount : Z) (token : string)
  : T TransferResult :=
  match
    match receiver with
    | PartyInt n => Some (Some (decode_address_int n), n)
    | PartyObject (Some address_int) => Some (None, address_int)
    | PartyStr address => Some (Some (decode_address address), encode_address address)
    | PartyObject None => None
    end
  with
  | None => fault StarknetProviderError
  | Some (receiver_address, receiver_address_int) =>
      and_then (sender_account_of sender) (fun sender_account =>
      and_then (__getitem__ token) (fun contract =>
      and_then
        (fun s =>
           match contract_transfer contract receiver_address_int amount sender_account
                   (world s, local_balance_cache s) with
           | ((world', cache'), r) =>
               (set_local_balance_cache cache' (set_world world' s), outcome_of r)
           end) (fun result =>
      match receiver_address with
      | None => fault (UnboundLocalError "receiver_address")
      | Some address => fun s =>
          (match local_balance_cache s !! address with
           | Some balance =>
               set_local_balance_cache
                 (<[address := balance + amount]> (local_balance_cache s)) s
           | None => s
           end, Done result)
      end)))
  end.
End Methods.
End TokenManager.

Module TM := TokenManager.

(** ** Sample data for the helpers and the token manager *)

Module SampleTokens.
(** A digest of sixty-four digits, the same for every text. *)
Definition digest : string :=
  "0f0f0f0f0f0f0f0f0f0f0f0f0f0f0f0f0f0f0f0f0f0f0f0f0f0f0f0f0f0f0f0f".

Definition address_library : AddressLibrary :=
  {| RawAddress := string;
     hexstr_if_str_to_hex := fun s => Ok (add_0x_prefix s);
     keccak_hex := fun _ => "0x" +:+ digest |}.

Definition value (c : StarknetChainId) : Z :=
  match c with
  | MAINNET => 1
  | TESTNET => 2
  end.

(** A network on which every account holds what the map says, in the low
    word, and on which a transfer goes through without touching the
    balance cache. The names of tokens are ASCII text. *)
Definition token_externals : TokenExternals :=
  {| World := gmap string Z;
     TransferResult := Z;
     str_lower := lower;
     local_eth := "0xFE";
     live_eth := "0xEE";
     live_token := "0x73";
     decode_address_int := fun _ => "0x1";
     encode_address := fun _ => 1;
     balanceOf := fun _ account w => Ok (Sequence [default 0 (w !! account); 0]);
     contract_transfer := fun _ _ _ _ wc => (wc, Ok 1);
     account_contracts_getitem := fun _ _ => Ok (PartyObject None) |}.

Definition manager (current : string) (cache : gmap string Z)
  : @TokenManager.St token_externals :=
  {| TokenManager.additional_tokens := ∅;
     TokenManager.local_balance_cache := cache;
     TokenManager.base_map_computed := false;
     TokenManager.contracts := ∅;
     TokenManager.network_name := current;
     TokenManager.world := {["0xB0B" := 50]} |}.
End SampleTokens.

(** * Properties *)

(** ** How the methods run *)

Section Runs.
Context {E : Externals}.
Implicit Types (self : KeyfileAccount) (env : Env) (p : string) (kwargs : Dict).

(** [__decrypt_key_file] reads the key file and changes nothing. *)
Lemma decrypt_run p self env :
  KA.__decrypt_key_file p (self, env)
  = ((self, env), decrypt_outcome (data_folder env !! key_file_path self) p).
Proof.
  unfold KA.__decrypt_key_file, KA.read_key_file, KA.self_, decode_keyfile_json,
    bind, gets, getitem, decrypt_outcome; cbn.
  destruct (data_folder env !! key_file_path self) as [d|]; cbn; [|done].
  destruct (d !! "public_key") as [pk|]; cbn; [|done].
  rewrite lookup_delete_ne, lookup_insert_ne by done.
  destruct (d !! "crypto") as [[| |c|]|]; cbn; try done.
  by destruct (keyfile_decode c p).
Qed.

(** [write] with the passphrase and the key in hand: one random draw, and
    the key file gets [kwargs] over its old content over the new key-file
    data. *)
Lemma write_run p k kwargs self env :
  KA.write (Some p) (Some k) kwargs (self, env)
  = ((self,
      set_data_folder
        (<[key_file_path self :=
             stored kwargs (data_folder env !! key_file_path self) k p
               (entropy env (drawn env))]> (data_folder env))
        (set_drawn (S (drawn env)) env)),
     Ok tt).
Proof.
  unfold KA.write, KA.__encrypt_key_file, KA.get_account_data, KA.write_key_file,
    KA.self_, BaseStarknetAccount.get_account_data, stored, relabelled.
  unfold bind, ret, on_env, create_keyfile_json, draw, gets, modify, getitem; cbn.
  unfold keyfile_json. rewrite lookup_insert_eq. cbn. done.
Qed.

Lemma prompt_run {X : Type} (x : X) env :
  on_env click_prompt (x, env)
  = match prompt_answers env with
    | p :: rest => ((x, set_prompt_answers rest env), Ok p)
    | [] => ((x, env), Raise Abort)
    end.
Proof. unfold on_env, click_prompt; cbn. by destruct (prompt_answers env). Qed.

(** With a passphrase in hand [_get_key] touches neither the terminal nor
    the files, and the object keeps its path. *)
Lemma get_key_some_frame p self env :
  exists self' r,
    KA._get_key (Some p) (self, env) = ((self', env), r) /\
    key_file_path self' = key_file_path self.
Proof.
  unfold KA._get_key, KA.self_, KA.set_self, bind, gets, modify, ret; cbn.
  destruct (__cached_key self) as [k|] eqn:Hc, (locked self) eqn:Hl; cbn;
    rewrite ?decrypt_run; cbn;
    try destruct (decrypt_outcome _ p); cbn; rewrite ?Hl; cbn; eauto.
Qed.

(** A locked object decrypts its file and, on success, is left unlocked
    with the key cached. *)
Lemma get_key_some_locked p self env :
  locked self = true ->
  KA._get_key (Some p) (self, env)
  = match decrypt_outcome (data_folder env !! key_file_path self) p with
    | Ok key =>
        (({| key_file_path := key_file_path self; locked := false;
             __cached_key := Some key |}, env), Ok key)
    | Raise e => ((set_cached_key None self, env), Raise e)
    end.
Proof.
  intros Hl.
  unfold KA._get_key, KA.self_, KA.set_self, bind, gets, modify, ret; cbn.
  rewrite Hl.
  destruct self as [path l c]; cbn in *; subst l.
  destruct c as [k|]; cbn; rewrite decrypt_run; cbn;
    destruct (decrypt_outcome _ p); cbn; done.
Qed.

(** Without a passphrase argument, and unless an unlocked cached key is
    returned at once, [_get_key] asks the terminal for the passphrase and
    then goes on exactly as if that passphrase had been the argument. *)
Lemma get_key_none_prompted self env :
  (__cached_key self = None \/ locked self = true) ->
  KA._get_key None (self, env)
  = match prompt_answers env with
    | p :: rest => KA._get_key (Some p) (self, set_prompt_answers rest env)
    | [] => ((set_cached_key None self, env), Raise Abort)
    end.
Proof.
  intros H.
  unfold KA._get_key, KA._get_passphrase_from_prompt, KA.self_, KA.set_self,
    bind, gets, modify, ret; cbn.
  destruct self as [path l c]; cbn in *.
  destruct c as [k|], l; cbn; try (destruct H; discriminate);
    rewrite prompt_run; cbn; destruct (prompt_answers env); cbn; try done.
Qed.

Lemma base_deployments_run (account : Account) env :
  BaseStarknetAccount.deployments account env
  = (env, deployments_of (account_data account env)).
Proof.
  unfold BaseStarknetAccount.deployments, deployments_of, bind, getitem.
  destruct account as [raw key|self]; cbn.
  - destruct (raw !! "deployments") as [[]|]; done.
  - destruct (default ∅ (data_folder env !! key_file_path self) !! "deployments")
      as [[]|]; done.
Qed.

Lemma deployments_run self env :
  KA.deployments (self, env)
  = ((self, env),
     deployments_of (default ∅ (data_folder env !! key_file_path self))).
Proof.
  unfold KA.deployments, KA.self_, bind, gets, on_env;
    cbn -[BaseStarknetAccount.deployments].
  by rewrite base_deployments_run.
Qed.

Lemma write_none_run (private_key : option Z) kwargs self env :
  KA.write None private_key kwargs (self, env)
  = match prompt_answers env with
    | p :: rest =>
        KA.write (Some p) private_key kwargs (self, set_prompt_answers rest env)
    | [] => ((self, env), Raise Abort)
    end.
Proof.
  unfold KA.write at 1. unfold bind at 1. rewrite prompt_run.
  destruct (prompt_answers env); done.
Qed.

Lemma stored_deployments ds old k p r :
  deployments_of (stored (<["deployments" := JDeployments ds]> ∅) old k p r)
  = Ok ds.
Proof.
  unfold deployments_of, stored.
  by erewrite lookup_union_Some_l by apply lookup_insert_eq.
Qed.

(** [write] keeps every entry the file already had, unless [kwargs]
    names it. *)
Lemma stored_keeps_old kwargs (d : Dict) k p r key v :
  kwargs !! key = None -> d !! key = Some v ->
  stored kwargs (Some d) k p r !! key = Some v.
Proof.
  intros Hk Hd. unfold stored; cbn.
  rewrite lookup_union_r by done. by apply lookup_union_Some_l.
Qed.

(** What a run of [add_deployment] that returns has done to the
    deployment list. *)
Lemma add_deployment_ok net addr self env s' :
  KA.add_deployment net addr (self, env) = (s', Ok tt) ->
  exists ds,
    deployments_of (default ∅ (data_folder env !! key_file_path self)) = Ok ds /\
    key_file_path s'.1 = key_file_path self /\
    deployments_of (default ∅ (data_folder s'.2 !! key_file_path s'.1))
    = Ok (filter (fun d => str_in (StarknetAccountDeployment.network_name d)
                             (_clean_network_name net) = false) ds
          ++ [{| StarknetAccountDeployment.network_name := _clean_network_name net;
                 StarknetAccountDeployment.contract_address := addr |}])%list.
Proof.
  unfold KA.add_deployment, KA._get_passphrase_from_prompt.
  unfold bind at 1. rewrite prompt_run.
  destruct (prompt_answers env) as [|p rest]; [discriminate|].
  unfold bind at 1. rewrite deployments_run.
  set (env1 := set_prompt_answers rest env).
  change (data_folder env1) with (data_folder env).
  destruct (deployments_of _) as [ds|] eqn:Hds; [|discriminate].
  unfold bind at 1.
  destruct (get_key_some_frame p self env1) as (self' & r & -> & Hpath).
  destruct r as [key|]; [|discriminate].
  rewrite write_run. intros [= <-]. exists ds. cbn.
  rewrite Hpath, lookup_insert_eq. cbn.
  by rewrite stored_deployments.
Qed.
End Runs.

Section Registry.
Context {E : Externals}.
Implicit Types (reg : Registry) (env : Env) (alias net addr : string).

(** [import_account] in closed form. *)
Lemma import_account_run alias net addr (pk : PrivateKeyArg) reg env :
  AC.import_account alias net addr pk (reg, env)
  = match key_of pk with
    | None => ((reg, env), Raise ValueError)
    | Some k =>
        if String.eqb (_clean_network_name net) LOCAL_NETWORK_NAME
        then
          ((set_ephemeral_accounts
              (<[alias := ephemeral_data k (_clean_network_name net) addr]>
                 (ephemeral_accounts reg)) reg, env), Ok tt)
        else
          match prompt_answers env with
          | p :: rest =>
              ((reg,
                set_data_folder
                  (<[key_file_stem alias :=
                       stored (deployment_data (_clean_network_name net) addr)
                         (data_folder env !! key_file_stem alias) k p
                         (entropy env (drawn env))]>
                     (data_folder env))
                  (set_drawn (S (drawn env)) (set_prompt_answers rest env))),
               Ok tt)
          | [] => ((reg, env), Raise Abort)
          end
    end.
Proof.
  assert (Hgo : forall k,
    (let network_name := _clean_network_name net in
     let public_key := private_to_stark_key k in
     let deployment_data : Dict :=
       <["deployments" :=
           JDeployments
             [{| StarknetAccountDeployment.network_name := network_name;
                 StarknetAccountDeployment.contract_address := addr |}]]> ∅ in
     if String.eqb network_name LOCAL_NETWORK_NAME
     then
       let account_data : Dict :=
         deployment_data ∪
           (<["public_key" := JInt public_key]>
            (<["private_key" := JInt k]> ∅)) in
       modify (fun s : AC.St =>
                 (set_ephemeral_accounts
                    (<[alias := account_data]> (ephemeral_accounts s.1)) s.1, s.2))
     else
       call_fresh (new_keyfile_account (key_file_stem alias))
         (KA.write None (Some k) deployment_data)) (reg, env)
    = if String.eqb (_clean_network_name net) LOCAL_NETWORK_NAME
      then
        ((set_ephemeral_accounts
            (<[alias := ephemeral_data k (_clean_network_name net) addr]>
               (ephemeral_accounts reg)) reg, env), Ok tt)
      else
        match prompt_answers env with
        | p :: rest =>
            ((reg,
              set_data_folder
                (<[key_file_stem alias :=
                     stored (deployment_data (_clean_network_name net) addr)
                       (data_folder env !! key_file_stem alias) k p
                       (entropy env (drawn env))]>
                   (data_folder env))
                (set_drawn (S (drawn env)) (set_prompt_answers rest env))),
             Ok tt)
        | [] => ((reg, env), Raise Abort)
        end).
  { intros k. cbn zeta.
    destruct (String.eqb (_clean_network_name net) LOCAL_NETWORK_NAME); [done|].
    unfold call_fresh; cbn [fst snd]. rewrite write_none_run.
    destruct (prompt_answers env); [done|]. by rewrite write_run. }
  unfold AC.import_account, key_of, bind.
  destruct pk as [k|s]; [exact (Hgo k)|].
  destruct (int_base16 _) as [k|]; [exact (Hgo k)|done].
Qed.

Lemma key_file_stem_alias alias : alias <> "" -> key_file_stem alias = alias.
Proof. intros H. unfold key_file_stem. by destruct (String.eqb_spec alias ""). Qed.

(** The search of [load_key_file_account] among the key files. *)
Lemma find_stem (files : gmap string Dict) alias :
  find (fun stem => String.eqb stem alias) (map_to_list files).*1
  = match files !! alias with Some _ => Some alias | None => None end.
Proof.
  destruct (find _ _) as [stem|] eqn:Hf.
  - apply find_some in Hf as [Hin Heq].
    apply String.eqb_eq in Heq as ->.
    apply list_elem_of_In, list_elem_of_fmap in Hin as ([a v] & -> & Hin).
    apply elem_of_map_to_list in Hin. cbn in *. by rewrite Hin.
  - destruct (files !! alias) as [v|] eqn:Hl; [|done].
    pose proof (find_none _ _ Hf alias) as Hn. cbn in Hn.
    rewrite String.eqb_refl in Hn. discriminate Hn.
    apply list_elem_of_In, list_elem_of_fmap. exists (alias, v).
    split; [done|]. by apply elem_of_map_to_list.
Qed.

Lemma load_key_file_account_run alias reg env :
  AC.load_key_file_account alias (reg, env)
  = match cached_accounts reg !! alias with
    | Some account => ((reg, env), Ok account)
    | None =>
        match data_folder env !! alias with
        | Some _ =>
            ((set_cached_accounts
                (<[alias := new_keyfile_account alias]> (cached_accounts reg)) reg,
              env), Ok (new_keyfile_account alias))
        | None => ((reg, env), Raise (AccountsError (NotFound alias)))
        end
    end.
Proof.
  unfold AC.load_key_file_account, AC._key_file_paths, bind, gets, modify, ret, raise;
    cbn [fst snd].
  destruct (cached_accounts reg !! alias); [done|].
  change (data_folder (reg, env).2) with (data_folder env).
  rewrite find_stem. by destruct (data_folder env !! alias).
Qed.

Lemma load_run alias reg env :
  AC.load alias (reg, env)
  = match ephemeral_accounts reg !! alias with
    | Some account_data => ((reg, env), Ok (Ephemeral account_data alias))
    | None =>
        match AC.load_key_file_account alias (reg, env) with
        | (s, Ok account) => (s, Ok (Keyfile account))
        | (s, Raise e) => (s, Raise e)
        end
    end.
Proof.
  unfold AC.load, bind, gets, ret; cbn [fst snd].
  by destruct (ephemeral_accounts reg !! alias).
Qed.
End Registry.

(** ** Substrings *)

Lemma prefix_app (t post : string) : String.prefix t (t +:+ post) = true.
Proof.
  induction t as [|c t IH]; simpl.
  - by destruct post.
  - destruct (ascii_dec c c); [exact IH | contradiction].
Qed.

Lemma prefix_split (t s : string) :
  String.prefix t s = true -> exists post, s = t +:+ post.
Proof.
  revert s. induction t as [|c t IH]; intros s H.
  - by exists s.
  - destruct s as [|c' s]; simpl in H; [discriminate|].
    destruct (ascii_dec c c') as [->|]; [|discriminate].
    destruct (IH _ H) as [post ->]. by exists post.
Qed.

Lemma str_in_occurs (t s : string) : str_in t s = true <-> occurs_in t s.
Proof.
  split.
  - induction s as [|c s IH]; cbn [str_in]; intros H.
    + rewrite orb_false_r in H. destruct (prefix_split _ _ H) as [post ->].
      by exists EmptyString, post.
    + apply orb_true_iff in H as [H|H].
      * destruct (prefix_split _ _ H) as [post Hs].
        exists EmptyString, post. exact Hs.
      * destruct (IH H) as (pre & post & ->).
        by exists (String c pre), post.
  - intros (pre & post & ->).
    induction pre as [|c pre IH].
    + change (EmptyString +:+ t +:+ post) with (t +:+ post).
      destruct (t +:+ post) eqn:Hs; cbn [str_in]; rewrite <- Hs, prefix_app; done.
    + change (str_in t (String c (pre +:+ t +:+ post)) = true).
      cbn [str_in]. rewrite IH. apply orb_true_r.
Qed.

Lemma str_in_refl (s : string) : str_in s s = true.
Proof.
  apply str_in_occurs. exists EmptyString, EmptyString.
  change (s = s +:+ EmptyString).
  induction s as [|c s IH]; [done|].
  change (String c s = String c (s +:+ EmptyString)). by rewrite <- IH.
Qed.

Lemma str_in_false (t s : string) : str_in t s = false <-> ~ occurs_in t s.
Proof.
  rewrite <- str_in_occurs. destruct (str_in t s); split; congruence.
Qed.

(** ** [_clean_network_name] *)

(** The three tokens are tried in the order local, mainnet, testnet. *)
Lemma clean_network_name_cases (s : string) :
  (occurs_in "local" s -> _clean_network_name s = "local") /\
  (~ occurs_in "local" s -> occurs_in "mainnet" s ->
   _clean_network_name s = "mainnet") /\
  (~ occurs_in "local" s -> ~ occurs_in "mainnet" s -> occurs_in "testnet" s ->
   _clean_network_name s = "testnet") /\
  (~ occurs_in "local" s -> ~ occurs_in "mainnet" s -> ~ occurs_in "testnet" s ->
   _clean_network_name s = s).
Proof.
  unfold _clean_network_name, network_tokens. simpl find.
  repeat split.
  - intros H%str_in_occurs. by rewrite H.
  - intros H1%str_in_false H2%str_in_occurs. by rewrite H1, H2.
  - intros H1%str_in_false H2%str_in_false H3%str_in_occurs.
    by rewrite H1, H2, H3.
  - intros H1%str_in_false H2%str_in_false H3%str_in_false.
    by rewrite H1, H2, H3.
Qed.

(** C6. Normalisation of a network name [s]: when one of the tokens local,
    mainnet, testnet occurs in [s] the result is one of the three tokens,
    and one that occurs in [s]; when none of them occurs in [s] the result
    is [s] itself. *)
Theorem clean_network_name_spec (s : string) :
  ((exists t, t ∈ network_tokens /\ occurs_in t s) ->
   _clean_network_name s ∈ network_tokens /\
   occurs_in (_clean_network_name s) s) /\
  ((forall t, t ∈ network_tokens -> ~ occurs_in t s) ->
   _clean_network_name s = s).
Proof.
  destruct (clean_network_name_cases s) as (Hl & Hm & Ht & Hn).
  assert (Htok : forall t, t ∈ network_tokens <->
                           t = "local" \/ t = "mainnet" \/ t = "testnet").
  { intros t. unfold network_tokens.
    rewrite !elem_of_cons, elem_of_nil. split.
    - intros [H | [H | [H | H]]];
        [by left | by right; left | by right; right | done].
    - intros [H | [H | H]];
        [by left | by right; left | by right; right; left]. }
  split.
  - intros (t & Ht' & Hocc).
    destruct (str_in "local" s) eqn:El.
    { apply str_in_occurs in El. rewrite (Hl El), Htok. split; [by left | done]. }
    apply str_in_false in El.
    destruct (str_in "mainnet" s) eqn:Em.
    { apply str_in_occurs in Em. rewrite (Hm El Em), Htok.
      split; [by right; left | done]. }
    apply str_in_false in Em.
    destruct (str_in "testnet" s) eqn:Et.
    { apply str_in_occurs in Et. rewrite (Ht El Em Et), Htok.
      split; [by right; right | done]. }
    apply str_in_false in Et.
    exfalso. apply Htok in Ht'. destruct Ht' as [H | [H | H]]; subst t; contradiction.
  - intros H.
    apply Hn; apply H; apply Htok; [by left | by right; left | by right; right].
Qed.

Lemma clean_network_name_spec_witness :
  (_clean_network_name "alpha-testnet" ∈ network_tokens /\
   occurs_in (_clean_network_name "alpha-testnet") "alpha-testnet") /\
  _clean_network_name "devnet" = "devnet".
Proof.
  split.
  - apply (clean_network_name_spec "alpha-testnet").
    exists "testnet". split.
    + unfold network_tokens. rewrite !elem_of_cons. by right; right; left.
    + apply str_in_occurs. reflexivity.
  - apply (clean_network_name_spec "devnet").
    intros t Ht. apply str_in_false.
    unfold network_tokens in Ht. rewrite !elem_of_cons, elem_of_nil in Ht.
    destruct Ht as [H | [H | [H | H]]]; [subst t; reflexivity .. | contradiction].
Defined.

(** ** Deployment uniqueness *)

Section Deployments.
Context {E : Externals}.
Implicit Types (self : KeyfileAccount) (env : Env) (p : string).

Lemma filter_kept_none (n : string) (ds : list Deployment) :
  filter (fun d => StarknetAccountDeployment.network_name d = n)
    (filter (fun d => str_in (StarknetAccountDeployment.network_name d) n = false) ds)
  = [].
Proof.
  induction ds as [|d ds IH]; [done|].
  rewrite filter_cons. case_decide as Hd; [|exact IH].
  rewrite filter_cons. case_decide as Hn; [|exact IH].
  rewrite Hn, str_in_refl in Hd. discriminate.
Qed.

(** [add_deployment] returns when the passphrase typed at the prompt
    opens the key file of a locked account and the file has a deployment
    list. *)
Lemma add_deployment_returns (net addr : string) self env p
  (rest : list string) (key : Z) (ds : list Deployment) :
  locked self = true ->
  prompt_answers env = p :: rest ->
  decrypt_outcome (data_folder env !! key_file_path self) p = Ok key ->
  deployments_of (default ∅ (data_folder env !! key_file_path self)) = Ok ds ->
  exists s', KA.add_deployment net addr (self, env) = (s', Ok tt).
Proof.
  intros Hl Hp Hdec Hds.
  unfold KA.add_deployment, KA._get_passphrase_from_prompt.
  unfold bind at 1. rewrite prompt_run, Hp.
  unfold bind at 1. rewrite deployments_run.
  cbn [data_folder set_prompt_answers]. rewrite Hds.
  unfold bind at 1. rewrite get_key_some_locked by done.
  cbn [data_folder set_prompt_answers]. rewrite Hdec.
  rewrite write_run. by eexists.
Qed.

(** C1 (for key-file accounts). Two calls of [add_deployment] with the
    same network name [net], the first with address [a] and the second
    with address [b], that both return: afterwards the deployment list of
    the account has exactly one record whose [network_name] is the
    normalised [net], and its [contract_address] is [b]. *)
Theorem add_deployment_twice (self : KeyfileAccount) (env : Env)
  (net a b : string) (s1 s2 : KA.St) :
  KA.add_deployment net a (self, env) = (s1, Ok tt) ->
  KA.add_deployment net b s1 = (s2, Ok tt) ->
  exists ds,
    BaseStarknetAccount.deployments (Keyfile s2.1) s2.2 = (s2.2, Ok ds) /\
    filter (fun d => StarknetAccountDeployment.network_name d = _clean_network_name net) ds
    = [{| StarknetAccountDeployment.network_name := _clean_network_name net;
          StarknetAccountDeployment.contract_address := b |}].
Proof.
  intros H1 H2.
  apply add_deployment_ok in H1 as (ds0 & _ & _ & Hds1).
  destruct s1 as [self1 env1].
  apply add_deployment_ok in H2 as (ds1 & Hds1' & _ & Hds2).
  cbn in Hds1, Hds1'. rewrite Hds1 in Hds1'. injection Hds1' as <-.
  eexists. split.
  - rewrite base_deployments_run. cbn. by rewrite Hds2.
  - rewrite filter_app, filter_kept_none, app_nil_l.
    rewrite filter_cons, filter_nil. by rewrite decide_True.
Qed.
End Deployments.

Lemma add_deployment_twice_witness :
  let s0 := (new_keyfile_account "bob",
             Sample.env {["bob" := Sample.bob_file]} "testnet" ["old"; "old"] []) in
  let s1 := (@KA.add_deployment Sample.externals "alpha-testnet" "0xA" s0).1 in
  let s2 := (@KA.add_deployment Sample.externals "alpha-testnet" "0xB" s1).1 in
  exists ds,
    BaseStarknetAccount.deployments (Keyfile s2.1) s2.2 = (s2.2, Ok ds) /\
    filter (fun d => StarknetAccountDeployment.network_name d = _clean_network_name "alpha-testnet") ds
    = [{| StarknetAccountDeployment.network_name := _clean_network_name "alpha-testnet";
          StarknetAccountDeployment.contract_address := "0xB" |}].
Proof.
  intros s0 s1 s2.
  refine (@add_deployment_twice Sample.externals (new_keyfile_account "bob")
           (Sample.env {["bob" := Sample.bob_file]} "testnet" ["old"; "old"] [])
           "alpha-testnet" "0xA" "0xB" s1 s2 _ _).
  - vm_compute. reflexivity.
  - vm_compute. reflexivity.
Defined.

(** The statement of C1 does not hold of ephemeral accounts, which have no
    [add_deployment]: both calls raise, and the deployment list is left as
    it was, without a record for the second address. *)
Lemma add_deployment_ephemeral_counterexample :
  let s0 := (Ephemeral Sample.eve_data "eve", Sample.env ∅ "local" [] []) in
  let r1 := @call_add_deployment Sample.externals "local" "0xA" s0 in
  let r2 := @call_add_deployment Sample.externals "local" "0xB" r1.1 in
  r1.2 = Raise (AttributeError "add_deployment") /\
  r2.2 = Raise (AttributeError "add_deployment") /\
  ~ exists ds,
      BaseStarknetAccount.deployments r2.1.1 r2.1.2 = (r2.1.2, Ok ds) /\
      filter (fun d => StarknetAccountDeployment.network_name d = _clean_network_name "local") ds
      = [{| StarknetAccountDeployment.network_name := _clean_network_name "local";
            StarknetAccountDeployment.contract_address := "0xB" |}].
Proof.
  cbn zeta. split; [reflexivity|]. split; [reflexivity|].
  intros (ds & Hds & Hf).
  rewrite base_deployments_run in Hds.
  vm_compute in Hds. injection Hds as <-.
  vm_compute in Hf. discriminate.
Qed.

(** ** The account container: listing and importing *)

Section Container.
Context {E : Externals}.
Implicit Types (reg : Registry) (env : Env) (alias net addr : string).

(** C10. The length of the container is the number of key files; it
    leaves the ephemeral accounts out. The alias listing yields the
    ephemeral aliases followed by the stems of the key files, so when
    there is at least one ephemeral account the length is strictly
    smaller than the number of aliases listed. *)
Theorem len_excludes_ephemeral (s : AC.St) :
  exists (n : nat) (l : list string),
    AC.__len__ s = (s, Ok n) /\
    AC.aliases s = (s, Ok l) /\
    n = size (data_folder s.2) /\
    l = ((map_to_list (ephemeral_accounts s.1)).*1
         ++ (map_to_list (data_folder s.2)).*1)%list /\
    (ephemeral_accounts s.1 <> ∅ -> (n < length l)%nat).
Proof.
  eexists _, _.
  split; [reflexivity|]. split; [reflexivity|].
  split; [by rewrite length_fmap, length_map_to_list|].
  split; [reflexivity|].
  intros Hne. apply map_size_non_empty_iff in Hne.
  rewrite length_app, !length_fmap, !length_map_to_list. lia.
Qed.

(** C9. [import_account] with a network name that normalises to the
    local network touches no key file: the data folder (indeed the whole
    environment) and the cache are as before, whatever the outcome. When
    the private key is well formed the call returns and the account data
    is bound to [alias] in [ephemeral_accounts]; otherwise [int] raises
    and nothing has changed. *)
Theorem import_account_local_frame alias net addr (pk : PrivateKeyArg) reg env :
  _clean_network_name net = LOCAL_NETWORK_NAME ->
  let r := AC.import_account alias net addr pk (reg, env) in
  data_folder r.1.2 = data_folder env /\
  r.1.2 = env /\
  cached_accounts r.1.1 = cached_accounts reg /\
  (forall k, key_of pk = Some k ->
     r.2 = Ok tt /\
     ephemeral_accounts r.1.1
     = <[alias := ephemeral_data k LOCAL_NETWORK_NAME addr]> (ephemeral_accounts reg)) /\
  (key_of pk = None -> r = ((reg, env), Raise ValueError)).
Proof.
  intros Hnet r. subst r. rewrite import_account_run, Hnet, String.eqb_refl.
  destruct (key_of pk) as [k|]; cbn.
  - do 3 (split; [done|]). split; [|done].
    by intros ? [= <-].
  - do 3 (split; [done|]). split; done.
Qed.

(** C3, as the code has it. [import_account] makes no check of [alias]
    against the accounts that exist and never raises the already-exists
    error. For a network name that normalises to the local network it
    returns and (re)binds [alias] in [ephemeral_accounts], leaving the
    other state as it was; for another network and an alias that is a
    file name, once the terminal has given a passphrase, it returns and
    the key file [<alias>.json] holds exactly the one new deployment
    record. That file is listed under [alias] when [alias] is not empty. *)
Theorem import_account_no_alias_check alias net addr (pk : PrivateKeyArg) reg env :
  let r := AC.import_account alias net addr pk (reg, env) in
  (forall a, r.2 <> Raise (AccountsError (AlreadyExists a))) /\
  (forall k, key_of pk = Some k ->
     _clean_network_name net = LOCAL_NETWORK_NAME ->
     r = ((set_ephemeral_accounts
             (<[alias := ephemeral_data k LOCAL_NETWORK_NAME addr]>
                (ephemeral_accounts reg)) reg, env), Ok tt)) /\
  (forall k p rest, key_of pk = Some k ->
     _clean_network_name net <> LOCAL_NETWORK_NAME ->
     is_file_name alias = true ->
     prompt_answers env = p :: rest ->
     r.2 = Ok tt /\ r.1.1 = reg /\
     (alias <> "" -> key_file_stem alias = alias) /\
     exists d, data_folder r.1.2 !! key_file_stem alias = Some d /\
               deployments_of d
               = Ok [{| StarknetAccountDeployment.network_name := _clean_network_name net;
                        StarknetAccountDeployment.contract_address := addr |}]).
Proof.
  intros r. subst r. rewrite import_account_run.
  split; [|split].
  - intros a. destruct (key_of pk); [|done].
    destruct (String.eqb _ _); [done|]. by destruct (prompt_answers env).
  - intros k -> ->. by rewrite String.eqb_refl.
  - intros k p rest -> Hnet%String.eqb_neq _ ->. rewrite Hnet. cbn.
    split; [done|]. split; [done|]. split; [apply key_file_stem_alias|].
    eexists. split; [apply lookup_insert_eq|].
    apply stored_deployments.
Qed.
End Container.

Section ContainerExamples.
#[local] Existing Instance Sample.externals.

Lemma len_excludes_ephemeral_witness :
  let s := (Sample.registry {["eve" := Sample.eve_data]},
            Sample.env {["bob" := Sample.bob_file]} "local" [] []) in
  exists (n : nat) (l : list string),
    AC.__len__ s = (s, Ok n) /\
    AC.aliases s = (s, Ok l) /\
    n = 1%nat /\ l = ["eve"; "bob"] /\ (n < length l)%nat.
Proof.
  intros s.
  destruct (len_excludes_ephemeral s) as (n & l & Hn & Hl & Hsize & Hlist & Hlt).
  exists n, l. split; [exact Hn|]. split; [exact Hl|].
  split; [rewrite Hsize; reflexivity|].
  split; [rewrite Hlist; reflexivity|].
  apply Hlt. intros H.
  apply (f_equal (fun m => bool_decide (is_Some (m !! "eve")))) in H.
  vm_compute in H. discriminate.
Defined.

Lemma import_account_local_frame_witness :
  let reg := Sample.registry {["eve" := Sample.eve_data]} in
  let env := Sample.env {["bob" := Sample.bob_file]} "local" [] [] in
  let r := AC.import_account "carol" "local" "0xC" (KeyStr "'0x1f'") (reg, env) in
  data_folder r.1.2 = data_folder env /\
  r.1.2 = env /\
  cached_accounts r.1.1 = cached_accounts reg /\
  r.2 = Ok tt /\
  ephemeral_accounts r.1.1
  = <["carol" := ephemeral_data 31 LOCAL_NETWORK_NAME "0xC"]> (ephemeral_accounts reg).
Proof.
  intros reg env r.
  destruct (import_account_local_frame "carol" "local" "0xC" (KeyStr "'0x1f'")
              reg env eq_refl) as (Hfiles & Henv & Hcache & Hkey & _).
  destruct (Hkey 31 eq_refl) as [Hok Heph].
  by repeat split.
Defined.

Lemma import_account_no_alias_check_witness :
  (let reg := Sample.registry {["eve" := Sample.eve_data]} in
   let env := Sample.env ∅ "local" [] [] in
   @AC.import_account Sample.externals "eve" "local" "0x2" (KeyInt 9) (reg, env)
   = ((set_ephemeral_accounts
         (<["eve" := ephemeral_data 9 LOCAL_NETWORK_NAME "0x2"]> (ephemeral_accounts reg))
         reg, env), Ok tt)) /\
  (let reg := Sample.registry ∅ in
   let env := Sample.env {["bob" := Sample.bob_file]} "testnet" ["new"] [] in
   let r := @AC.import_account Sample.externals "bob" "mainnet" "0x2" (KeyInt 9) (reg, env) in
   r.2 = Ok tt /\ r.1.1 = reg /\
   ("bob" <> "" -> key_file_stem "bob" = "bob") /\
   exists d, data_folder r.1.2 !! key_file_stem "bob" = Some d /\
             deployments_of d
             = Ok [{| StarknetAccountDeployment.network_name := _clean_network_name "mainnet";
                      StarknetAccountDeployment.contract_address := "0x2" |}]).
Proof.
  split.
  - intros reg env.
    apply (proj1 (proj2 (@import_account_no_alias_check Sample.externals
                           "eve" "local" "0x2" (KeyInt 9) reg env)) 9);
      reflexivity.
  - intros reg env.
    apply (proj2 (proj2 (@import_account_no_alias_check Sample.externals
                           "bob" "mainnet" "0x2" (KeyInt 9) reg env)) 9 "new" []).
    + reflexivity.
    + vm_compute. discriminate.
    + reflexivity.
    + reflexivity.
Defined.

(** The statement of C3 fails on the code: an alias present in the
    ephemeral namespace, and one present as a key file, are both imported
    over, without an error and with a change of state. *)
Lemma import_account_collision_counterexample :
  (let s0 := (Sample.registry {["eve" := Sample.eve_data]}, Sample.env ∅ "local" [] []) in
   let r := @AC.import_account Sample.externals "eve" "local" "0x2" (KeyInt 9) s0 in
   ephemeral_accounts s0.1 !! "eve" = Some Sample.eve_data /\
   r.2 = Ok tt /\
   ephemeral_accounts r.1.1 !! "eve" <> ephemeral_accounts s0.1 !! "eve") /\
  (let s0 := (Sample.registry ∅,
              Sample.env {["bob" := Sample.bob_file]} "testnet" ["new"] []) in
   let r := @AC.import_account Sample.externals "bob" "mainnet" "0x2" (KeyInt 9) s0 in
   data_folder s0.2 !! "bob" = Some Sample.bob_file /\
   r.2 = Ok tt /\
   data_folder r.1.2 !! "bob" <> data_folder s0.2 !! "bob").
Proof.
  split; cbn zeta.
  - split; [reflexivity|]. split; [reflexivity|].
    intros H. apply (f_equal (fun o => deployments_of (default ∅ o))) in H.
    vm_compute in H. discriminate.
  - split; [reflexivity|]. split; [reflexivity|].
    intros H. apply (f_equal (fun o => deployments_of (default ∅ o))) in H.
    vm_compute in H. discriminate.
Qed.
End ContainerExamples.

(** ** [contract_address] *)


Section ContractAddress.
Context {E : Externals}.
Implicit Types (account : Account) (reg : Registry) (env : Env).

Lemma contract_address_run account env :
  BaseStarknetAccount.contract_address account env
  = (env,
     match deployments_of (account_data account env) with
     | Ok ds =>
         match find (fun d => String.eqb (StarknetAccountDeployment.network_name d)
                                (network env)) ds with
         | Some d => Ok (decode_address (StarknetAccountDeployment.contract_address d))
         | None =>
             Raise (AccountsError
                      (NotDeployed (BaseStarknetAccount.alias account) (network env)))
         end
     | Raise e => Raise e
     end).
Proof.
  unfold BaseStarknetAccount.contract_address, bind, gets.
  rewrite base_deployments_run.
  destruct (deployments_of _) as [ds|]; [|done].
  by destruct (find _ ds).
Qed.



End ContractAddress.

Section ContractAddressExamples.
#[local] Existing Instance Sample.externals.


End ContractAddressExamples.

(** ** [deploy_account] *)

Section Deploy.
Context {E : Externals}.
Implicit Types (reg : Registry) (env : Env) (alias : string).

Lemma existsb_eqb_elem_of alias (l : list string) :
  existsb (String.eqb alias) l = true <-> alias ∈ l.
Proof.
  rewrite existsb_exists. split.
  - intros (x & Hx%list_elem_of_In & ->%String.eqb_eq). done.
  - intros H. exists alias. split; [by apply list_elem_of_In|].
    apply String.eqb_refl.
Qed.

(** [deploy_account] in closed form. *)
Lemma deploy_account_run alias (private_key : option Z) reg env :
  let known := ((map_to_list (ephemeral_accounts reg)).*1
                ++ (map_to_list (data_folder env)).*1)%list in
  let random := match private_key with Some k => Z.eqb k 0 | None => true end in
  let key := if random then entropy env (drawn env) else default 0 private_key in
  let env0 := if random then set_drawn (S (drawn env)) env else env in
  AC.deploy_account alias private_key (reg, env)
  = if existsb (String.eqb alias) known
    then ((reg, env), Raise (AccountsError (AlreadyExists alias)))
    else
      match send_transaction env (private_to_stark_key key) with
      | Raise e => ((reg, env0), Raise e)
      | Ok receipt =>
          match receipt_contract_address receipt with
          | None => ((reg, env0), Raise (AccountsError FailedToDeploy))
          | Some contract_address =>
              if String.eqb contract_address ""
              then ((reg, env0), Raise (AccountsError FailedToDeploy))
              else
                match AC.import_account alias (network env) contract_address
                        (KeyInt key) (reg, env0) with
                | (s, Ok _) => (s, Ok contract_address)
                | (s, Raise e) => (s, Raise e)
                end
          end
      end.
Proof.
  intros known random key env0.
  unfold AC.deploy_account. unfold bind at 1.
  change (AC.aliases (reg, env)) with ((reg, env), Ok known).
  cbv beta iota.
  destruct (existsb (String.eqb alias) known); [done|].
  unfold bind at 1. cbn [AC.provider_network_name gets fst snd].
  assert (Hkey :
    match private_key with
    | Some k => if Z.eqb k 0 then on_env get_random_private_key else ret k
    | None => on_env get_random_private_key
    end (reg, env) = ((reg, env0), Ok key)).
  { subst random key env0. destruct private_key as [k|]; [|done].
    by destruct (Z.eqb k 0). }
  unfold bind at 1. rewrite Hkey.
  unfold bind at 1. cbn [gets fst snd].
  assert (Hsend : send_transaction env0 = send_transaction env).
  { subst env0. by destruct random. }
  rewrite Hsend.
  destruct (send_transaction env (private_to_stark_key key)) as [receipt|e]; [|done].
  destruct (receipt_contract_address receipt) as [contract_address|]; [|done].
  destruct (String.eqb contract_address ""); [done|].
  unfold bind, ret.
  by destruct (AC.import_account _ _ _ _ _) as [s [[]|e]].
Qed.


End Deploy.

Section DeployExamples.
#[local] Existing Instance Sample.externals.


End DeployExamples.

(** ** Unlocking: [_get_key] *)

Section Unlock.
Context {E : Externals}.
Implicit Types (self : KeyfileAccount) (env : Env) (p : string).

(** No run of [_get_key] reads an answer of [click.confirm]: by the time
    the last test is made the variable [passphrase] holds a string, also
    when the caller passed none. *)
Lemma get_key_never_confirms (passphrase : option string) self env :
  confirm_answers (KA._get_key passphrase (self, env)).1.2 = confirm_answers env.
Proof.
  assert (Hsome : forall p env',
    confirm_answers (KA._get_key (Some p) (self, env')).1.2 = confirm_answers env').
  { intros p env'.
    by destruct (get_key_some_frame p self env') as (self' & r & -> & _). }
  destruct passphrase as [p|]; [apply Hsome|].
  destruct (__cached_key self) as [k|] eqn:Hc, (locked self) eqn:Hl.
  - rewrite get_key_none_prompted by auto.
    destruct (prompt_answers env); [done|]. by rewrite Hsome.
  - unfold KA._get_key, KA.self_, bind, gets; cbn. by rewrite Hc, Hl.
  - rewrite get_key_none_prompted by auto.
    destruct (prompt_answers env); [done|]. by rewrite Hsome.
  - rewrite get_key_none_prompted by auto.
    destruct (prompt_answers env); [done|]. by rewrite Hsome.
Qed.

(** A locked account whose key is resolved without a passphrase argument:
    the passphrase comes from the prompt and, when it opens the file, the
    account is left unlocked with the key cached, whatever the terminal
    would answer to a confirmation. *)
Lemma get_key_prompt_unlocks self env p (rest : list string) (key : Z) :
  locked self = true ->
  prompt_answers env = p :: rest ->
  decrypt_outcome (data_folder env !! key_file_path self) p = Ok key ->
  KA._get_key None (self, env)
  = (({| key_file_path := key_file_path self; locked := false;
         __cached_key := Some key |}, set_prompt_answers rest env), Ok key).
Proof.
  intros Hl Hp Hd.
  rewrite get_key_none_prompted, Hp by auto.
  rewrite get_key_some_locked by done. cbn. by rewrite Hd.
Qed.
End Unlock.

Section UnlockExamples.
#[local] Existing Instance Sample.externals.

(** C7, on the code. A locked account, no passphrase argument, the right
    passphrase typed at the prompt and the answer no waiting for the
    confirmation: the key is returned, the account is left unlocked with
    the key cached, and the answer has not been read. The same happens
    with the passphrase passed as argument. *)
Theorem get_key_prompt_skips_confirmation :
  let self := new_keyfile_account "bob" in
  let env := Sample.env {["bob" := Sample.bob_file]} "testnet" ["old"] [false] in
  let unlocked := {| key_file_path := "bob"; locked := false; __cached_key := Some 1 |} in
  KA._get_key None (self, env)
  = ((unlocked, Sample.env {["bob" := Sample.bob_file]} "testnet" [] [false]), Ok 1) /\
  KA._get_key (Some "old") (self, env) = ((unlocked, env), Ok 1).
Proof. split; vm_compute; reflexivity. Qed.
End UnlockExamples.

(** ** [change_password] *)

Section ChangePassword.
Context {E : Externals}.
Implicit Types (self : KeyfileAccount) (env : Env) (p : string).

(** Whatever passphrase is typed as the new one, a run of
    [change_password] that returns has left every entry of the key file
    as it was: the file opens under the same passphrases as before. *)
Lemma change_password_keeps_record self env (s' : KA.St) :
  KA.change_password (self, env) = (s', Ok tt) ->
  exists d d' : Dict,
    data_folder env !! key_file_path self = Some d /\
    data_folder s'.2 !! key_file_path self = Some d' /\
    (forall key v, d !! key = Some v -> d' !! key = Some v) /\
    (forall p, decrypt_outcome (Some d') p = decrypt_outcome (Some d) p) /\
    deployments_of d' = deployments_of d.
Proof.
  unfold KA.change_password, KA._get_passphrase_from_prompt, KA.set_self.
  unfold bind at 1. cbn [modify fst snd].
  unfold bind at 1. rewrite prompt_run.
  destruct (prompt_answers env) as [|old rest] eqn:Hp; [discriminate|].
  unfold bind at 1. rewrite get_key_some_locked by done.
  cbn [key_file_path set_locked data_folder set_prompt_answers].
  destruct (data_folder env !! key_file_path self) as [d|] eqn:Hd; [|discriminate].
  destruct (decrypt_outcome (Some d) old) as [k|] eqn:Hdec; [|discriminate].
  rewrite write_none_run. cbn [prompt_answers set_prompt_answers].
  destruct rest as [|new rest]; [discriminate|].
  rewrite write_run. intros [= <-]. cbn. rewrite Hd, lookup_insert_eq.
  assert (Hkeep : forall key v, d !! key = Some v ->
            stored ∅ (Some d) k new (entropy env (drawn env)) !! key = Some v)
    by (intros; by apply stored_keeps_old).
  exists d. eexists. split; [done|]. split; [done|]. split; [exact Hkeep|].
  split.
  - intros p. unfold decrypt_outcome in *.
    destruct (d !! "public_key") as [pk|] eqn:Hpk; [|discriminate].
    rewrite (Hkeep _ _ Hpk).
    destruct (d !! "crypto") as [c|] eqn:Hc; [|discriminate].
    by rewrite (Hkeep _ _ Hc).
  - unfold deployments_of.
    destruct (d !! "deployments") as [v|] eqn:Hv; [by rewrite (Hkeep _ _ Hv)|].
    unfold stored, relabelled, keyfile_json. cbn.
    rewrite lookup_union_r by done. rewrite lookup_union_r by done.
    by rewrite lookup_delete_ne, !lookup_insert_ne.
Qed.
End ChangePassword.

Section ChangePasswordExamples.
#[local] Existing Instance Sample.externals.

(** C2, on the code. The key file of bob holds key 1 under the passphrase
    old; [change_password] is run with old and then new typed at the
    prompts. It returns, and the file is what it was: it still opens under
    old and does not open under new. *)
Theorem change_password_keeps_old_passphrase :
  let self := new_keyfile_account "bob" in
  let env := Sample.env {["bob" := Sample.bob_file]} "testnet" ["old"; "new"] [] in
  let r := KA.change_password (self, env) in
  r.2 = Ok tt /\
  prompt_answers r.1.2 = [] /\
  data_folder r.1.2 !! "bob" = Some Sample.bob_file /\
  (KA.__decrypt_key_file "new" r.1).2 = Raise MacMismatch /\
  (KA.__decrypt_key_file "old" r.1).2 = Ok 1.
Proof. cbn zeta. repeat split; vm_compute; reflexivity. Qed.
End ChangePasswordExamples.

(** ** Deleting a deployment *)

Section Delete.
Context {E : Externals}.
Implicit Types (self : KeyfileAccount) (reg : Registry) (env : Env)
  (p alias : string).

Lemma write_from_file_run p kwargs self env :
  KA.write (Some p) None kwargs (self, env)
  = match KA._get_key (Some p) (self, env) with
    | (s, Ok k) => KA.write (Some p) (Some k) kwargs s
    | (s, Raise e) => (s, Raise e)
    end.
Proof.
  unfold KA.write, KA.__encrypt_key_file, bind, ret.
  destruct (KA._get_key (Some p) (self, env)) as [s [k|e]]; done.
Qed.

(** What a run of [delete] that returns has done: with no deployment
    left the key file is removed, otherwise it holds the deployments
    that are left. A deployment is dropped when its network name occurs
    in [network]. *)
Lemma keyfile_delete_ok (network : string) self env (s' : KA.St) :
  KA.delete network (self, env) = (s', Ok tt) ->
  exists ds,
    deployments_of (default ∅ (data_folder env !! key_file_path self)) = Ok ds /\
    let remaining :=
      filter (fun d => str_in (StarknetAccountDeployment.network_name d) network = false) ds in
    (remaining = [] ->
     data_folder s'.2 = base.delete (key_file_path self) (data_folder env)) /\
    (remaining <> [] ->
     exists d', data_folder s'.2 !! key_file_path self = Some d' /\
                deployments_of d' = Ok remaining).
Proof.
  unfold KA.delete. unfold bind at 1. rewrite prompt_run.
  destruct (prompt_answers env) as [|p rest]; [discriminate|].
  unfold bind at 1. rewrite decrypt_run.
  cbn [data_folder set_prompt_answers].
  destruct (decrypt_outcome _ p) as [k|] eqn:Hdec; [|discriminate].
  unfold bind at 1. rewrite deployments_run.
  cbn [data_folder set_prompt_answers].
  destruct (deployments_of _) as [ds|] eqn:Hds; [|discriminate].
  intros Hrun. exists ds. split; [done|]. cbn zeta.
  destruct (filter _ ds) as [|d0 rem] eqn:Hrem.
  - split; [intros _|done].
    unfold KA.unlink, KA.self_, bind, gets, modify in Hrun. cbn in Hrun.
    destruct (data_folder env !! key_file_path self); [|discriminate].
    by injection Hrun as <-.
  - split; [done|intros _].
    rewrite write_from_file_run in Hrun.
    destruct (get_key_some_frame p self (set_prompt_answers rest env))
      as (self' & r & Hk & Hpath).
    rewrite Hk in Hrun. destruct r as [k'|]; [|discriminate].
    rewrite write_run in Hrun. injection Hrun as <-. cbn.
    rewrite Hpath, lookup_insert_eq. eexists. split; [done|].
    apply stored_deployments.
Qed.

(** [load] answers from the cache before it looks at the data folder. *)
Lemma load_prefers_cache alias (cached : KeyfileAccount) reg env :
  ephemeral_accounts reg !! alias = None ->
  cached_accounts reg !! alias = Some cached ->
  AC.load alias (reg, env) = ((reg, env), Ok (Keyfile cached)).
Proof.
  intros He Hc. by rewrite load_run, He, load_key_file_account_run, Hc.
Qed.

(** With an empty cache, an alias that has no key file is not found. *)
Lemma load_not_found alias reg env :
  ephemeral_accounts reg !! alias = None ->
  cached_accounts reg !! alias = None ->
  data_folder env !! alias = None ->
  AC.load alias (reg, env) = ((reg, env), Raise (AccountsError (NotFound alias))).
Proof.
  intros He Hc Hf. by rewrite load_run, He, load_key_file_account_run, Hc, Hf.
Qed.

(** After [delete_account] has returned for an alias that is not an
    ephemeral one, the account object sits in the cache, and [load]
    returns it whether or not its key file is still there. *)
Lemma delete_account_then_load alias (network : option string) reg env
  (s' : AC.St) :
  ephemeral_accounts reg !! alias = None ->
  AC.delete_account alias network (reg, env) = (s', Ok tt) ->
  exists account, AC.load alias s' = (s', Ok (Keyfile account)).
Proof.
  intros He. unfold AC.delete_account. unfold bind at 1.
  set (net := match network with
              | Some n => if String.eqb n "" then AC.provider_network_name else ret n
              | None => AC.provider_network_name
              end).
  assert (Hnet : exists n, net (reg, env) = ((reg, env), Ok n)).
  { subst net. destruct network as [n|]; [destruct (String.eqb n "")|]; by eexists. }
  destruct Hnet as (n & ->).
  unfold bind at 1. cbn [gets fst snd]. rewrite He.
  unfold bind at 1. rewrite load_key_file_account_run.
  assert (Hcall : forall reg0 (account : KeyfileAccount),
    ephemeral_accounts reg0 !! alias = None ->
    AC.call_cached alias account (KA.delete n) (reg0, env) = (s', Ok tt) ->
    exists account', AC.load alias s' = (s', Ok (Keyfile account'))).
  { intros reg0 account He0. unfold AC.call_cached. cbn [fst snd].
    destruct (KA.delete n (account, env)) as [[account' env'] r].
    intros [= <- ->]. exists account'.
    apply load_prefers_cache; [done|]. cbn. apply lookup_insert_eq. }
  destruct (cached_accounts reg !! alias) as [account|].
  - by apply Hcall.
  - destruct (data_folder env !! alias); [|discriminate].
    by apply Hcall.
Qed.
End Delete.

Section DeleteExamples.
#[local] Existing Instance Sample.externals.

(** C5, on the code. Alias bob has a key file with its one deployment, on
    testnet. [delete_account] for testnet, with the passphrase typed at the
    prompt, returns and removes the key file; [load] of bob then returns
    the account object left in the cache instead of raising the not-found
    error. A container whose cache does not hold bob raises it. *)
Theorem delete_last_deployment_then_load :
  let reg := Sample.registry ∅ in
  let env := Sample.env {["bob" := Sample.bob_file]} "testnet" ["old"] [] in
  let r := AC.delete_account "bob" (Some "testnet") (reg, env) in
  r.2 = Ok tt /\
  data_folder r.1.2 = ∅ /\
  (AC.load "bob" r.1).2
  = Ok (Keyfile {| key_file_path := "bob"; locked := true; __cached_key := None |}) /\
  (AC.load "bob" (reg, r.1.2)).2 = Raise (AccountsError (NotFound "bob")).
Proof. cbn zeta. repeat split; vm_compute; reflexivity. Qed.
End DeleteExamples.


(** * Further properties of the account classes *)

(** ** Normalised network names *)

(** The normalised name occurs in the name it comes from. *)
Lemma clean_network_name_occurs (s : string) :
  str_in (_clean_network_name s) s = true.
Proof.
  unfold _clean_network_name, network_tokens. cbn [find].
  destruct (str_in "local" s) eqn:Hl; [exact Hl|].
  destruct (str_in "mainnet" s) eqn:Hm; [exact Hm|].
  destruct (str_in "testnet" s) eqn:Ht; [exact Ht|].
  apply str_in_refl.
Qed.

(** A token that occurs in a normalised name is that name. *)
Lemma token_in_clean_network_name (t s : string) :
  t ∈ network_tokens -> str_in t (_clean_network_name s) = true ->
  t = _clean_network_name s.
Proof.
  unfold network_tokens. rewrite !elem_of_cons, elem_of_nil.
  unfold _clean_network_name, network_tokens. cbn [find].
  intros Ht.
  destruct (str_in "local" s) eqn:Hl.
  { destruct Ht as [-> | [-> | [-> | []]]]; [done | discriminate ..]. }
  destruct (str_in "mainnet" s) eqn:Hm.
  { destruct Ht as [-> | [-> | [-> | []]]]; [discriminate | done | discriminate]. }
  destruct (str_in "testnet" s) eqn:Hs.
  { destruct Ht as [-> | [-> | [-> | []]]]; [discriminate | discriminate | done]. }
  destruct Ht as [-> | [-> | [-> | []]]]; congruence.
Qed.

(** X1. Normalising a network name twice is the same as normalising it
    once. *)
Theorem clean_network_name_idempotent (s : string) :
  _clean_network_name (_clean_network_name s) = _clean_network_name s.
Proof.
  unfold _clean_network_name at 2 3. unfold network_tokens. cbn [find].
  destruct (str_in "local" s) eqn:Hl; [reflexivity|].
  destruct (str_in "mainnet" s) eqn:Hm; [reflexivity|].
  destruct (str_in "testnet" s) eqn:Ht; [reflexivity|].
  unfold _clean_network_name, network_tokens. cbn [find].
  by rewrite Hl, Hm, Ht.
Qed.

(** ** The deployment list of a key-file account *)

Section DeploymentList.
Context {E : Externals}.
Implicit Types (self : KeyfileAccount) (env : Env) (ds : list Deployment).

Lemma unique_networks_filter (P : Deployment -> Prop) `{!forall d, Decision (P d)} ds :
  unique_networks ds -> unique_networks (filter P ds).
Proof.
  unfold unique_networks. intros Hds.
  eapply sublist_NoDup; [exact Hds|]. apply fmap_sublist, sublist_filter.
Qed.

(** X2. A run of [add_deployment] or of [delete] that returns keeps the
    network names of the deployment list pairwise distinct. *)
Theorem deployments_stay_unique self env ds (s' : KA.St) :
  BaseStarknetAccount.deployments (Keyfile self) env = (env, Ok ds) ->
  unique_networks ds ->
  (forall net addr,
     KA.add_deployment net addr (self, env) = (s', Ok tt) ->
     exists ds', BaseStarknetAccount.deployments (Keyfile s'.1) s'.2 = (s'.2, Ok ds') /\
                 unique_networks ds') /\
  (forall network,
     KA.delete network (self, env) = (s', Ok tt) ->
     data_folder s'.2 !! key_file_path self = None \/
     exists ds', BaseStarknetAccount.deployments (Keyfile self) s'.2 = (s'.2, Ok ds') /\
                 unique_networks ds').
Proof.
  rewrite base_deployments_run. cbn [account_data]. intros [= Hds] Hu. split.
  - intros net addr (ds0 & Hds0 & Hpath & Hds')%add_deployment_ok.
    rewrite Hds in Hds0. injection Hds0 as <-.
    eexists. rewrite base_deployments_run. cbn [account_data]. rewrite Hds'.
    split; [reflexivity|].
    unfold unique_networks. rewrite fmap_app. apply NoDup_app.
    split; [by apply unique_networks_filter|]. split; [|apply NoDup_singleton].
    intros n (d & -> & Hd)%list_elem_of_fmap Hn%list_elem_of_singleton.
    apply list_elem_of_filter in Hd as [Hd _]. cbn in Hn.
    rewrite Hn, str_in_refl in Hd. discriminate.
  - intros network (ds0 & Hds0 & Hempty & Hrest)%keyfile_delete_ok.
    rewrite Hds in Hds0. injection Hds0 as <-. cbn zeta in Hempty, Hrest.
    destruct (filter _ ds) as [|d rem] eqn:Hrem.
    + left. rewrite (Hempty eq_refl). apply lookup_delete_eq.
    + right. destruct Hrest as (d' & Hfile & Hds'); [done|].
      eexists. rewrite base_deployments_run. cbn [account_data].
      rewrite Hfile. cbn. rewrite Hds'. split; [reflexivity|].
      rewrite <- Hrem. by apply unique_networks_filter.
Qed.

(** X3. [add_deployment] leaves alone the deployments on the other
    standard networks: a record whose name is one of local, mainnet,
    testnet and is not the normalised name of the network being added is
    still in the list afterwards, and the list ends with the new record. *)
Theorem add_deployment_keeps_other_networks self env ds (net addr : string)
  (s' : KA.St) :
  BaseStarknetAccount.deployments (Keyfile self) env = (env, Ok ds) ->
  KA.add_deployment net addr (self, env) = (s', Ok tt) ->
  exists ds',
    BaseStarknetAccount.deployments (Keyfile s'.1) s'.2 = (s'.2, Ok ds') /\
    last ds' = Some {| StarknetAccountDeployment.network_name := _clean_network_name net;
                       StarknetAccountDeployment.contract_address := addr |} /\
    (length ds' <= S (length ds))%nat /\
    forall d, d ∈ ds ->
              StarknetAccountDeployment.network_name d ∈ network_tokens ->
              StarknetAccountDeployment.network_name d <> _clean_network_name net ->
              d ∈ ds'.
Proof.
  rewrite base_deployments_run. cbn [account_data]. intros [= Hds].
  intros (ds0 & Hds0 & Hpath & Hds')%add_deployment_ok.
  rewrite Hds in Hds0. injection Hds0 as <-.
  eexists. rewrite base_deployments_run. cbn [account_data]. rewrite Hds'.
  split; [reflexivity|]. split; [apply last_snoc|]. split.
  - rewrite length_app. cbn. pose proof (length_filter
      (fun d => str_in (StarknetAccountDeployment.network_name d)
                  (_clean_network_name net) = false) ds). lia.
  - intros d Hd Htok Hne. apply elem_of_app. left.
    apply list_elem_of_filter. split; [|done].
    destruct (str_in _ _) eqn:Hin; [|done].
    by apply token_in_clean_network_name in Hin.
Qed.

(** X4. After [add_deployment] for a network, [get_deployment] for the
    normalised name of that network finds the new record, and
    [get_deployment] for the name as it was given finds some record. *)
Theorem get_deployment_after_add_deployment self env (net addr : string)
  (s' : KA.St) :
  KA.add_deployment net addr (self, env) = (s', Ok tt) ->
  BaseStarknetAccount.get_deployment (Keyfile s'.1) (_clean_network_name net) s'.2
  = (s'.2, Ok (Some {| StarknetAccountDeployment.network_name := _clean_network_name net;
                       StarknetAccountDeployment.contract_address := addr |})) /\
  exists d, BaseStarknetAccount.get_deployment (Keyfile s'.1) net s'.2 = (s'.2, Ok (Some d)).
Proof.
  intros (ds & _ & _ & Hds')%add_deployment_ok.
  unfold BaseStarknetAccount.get_deployment, bind, ret.
  rewrite base_deployments_run. cbn [account_data]. rewrite Hds'.
  split.
  - f_equal. f_equal. clear Hds'.
    induction ds as [|d ds IH].
    + cbn. by rewrite str_in_refl.
    + rewrite filter_cons. destruct (decide _) as [Hd|Hd]; [|exact IH].
      rewrite <- app_comm_cons. cbn [find]. by rewrite Hd.
  - destruct (find _ _) as [d|] eqn:Hf; [by eexists|].
    exfalso. pose proof (find_none _ _ Hf) as Hn.
    specialize (Hn {| StarknetAccountDeployment.network_name := _clean_network_name net;
                      StarknetAccountDeployment.contract_address := addr |}).
    cbn in Hn. rewrite clean_network_name_occurs in Hn.
    discriminate Hn. apply in_or_app. right. by left.
Qed.
End DeploymentList.


(** ** Failures and the data folder *)

Section Failures.
Context {E : Externals}.
Implicit Types (self : KeyfileAccount) (reg : Registry) (env : Env) (p : string).


End Failures.

(** ** The lock state of a key-file account *)

Section LockState.
Context {E : Externals}.
Implicit Types (self : KeyfileAccount) (env : Env) (p : string).

Lemma get_key_lock_inv (passphrase : option string) self env :
  lock_inv self -> lock_inv (KA._get_key passphrase (self, env)).1.1.
Proof.
  unfold lock_inv. intros Hinv.
  assert (Hsome : forall p env', lock_inv (KA._get_key (Some p) (self, env')).1.1).
  { intros p env'. unfold lock_inv.
    destruct (locked self) eqn:Hl.
    - rewrite get_key_some_locked by done.
      destruct (decrypt_outcome _ p); cbn; [by eexists | by rewrite Hl].
    - destruct (Hinv eq_refl) as [k Hk].
      unfold KA._get_key, KA.self_, bind, gets, ret; cbn. rewrite Hk, Hl. cbn.
      intros _. by eexists. }
  destruct passphrase as [p|]; [apply Hsome|].
  destruct (locked self) eqn:Hl.
  - rewrite get_key_none_prompted by auto.
    destruct (prompt_answers env); [cbn; by rewrite Hl | apply Hsome].
  - destruct (Hinv eq_refl) as [k Hk].
    unfold KA._get_key, KA.self_, bind, gets, ret; cbn. rewrite Hk, Hl. cbn.
    intros _. by eexists.
Qed.

(** X6. The invariant of the lock state, an unlocked account object holds
    its key, is true of a new account object and is kept by every method
    of the key-file account, whatever the outcome of the method. *)
Theorem lock_inv_kept self env :
  lock_inv (new_keyfile_account (key_file_path self)) /\
  (lock_inv self ->
   (forall passphrase, lock_inv (KA._get_key passphrase (self, env)).1.1) /\
   (forall passphrase private_key kwargs,
      lock_inv (KA.write passphrase private_key kwargs (self, env)).1.1) /\
   (forall network, lock_inv (KA.delete network (self, env)).1.1) /\
   (forall net addr, lock_inv (KA.add_deployment net addr (self, env)).1.1)) /\
  lock_inv (KA.change_password (self, env)).1.1.
Proof.
  assert (Hwrite : forall p private_key kwargs self0 env0,
    lock_inv self0 ->
    lock_inv (KA.write (Some p) private_key kwargs (self0, env0)).1.1).
  { intros p [k|] kwargs self0 env0 Hinv.
    - by rewrite write_run.
    - rewrite write_from_file_run.
      pose proof (get_key_lock_inv (Some p) self0 env0 Hinv) as Hk.
      destruct (KA._get_key (Some p) (self0, env0)) as [[self1 env1] [k|]]; [|done].
      by rewrite write_run. }
  assert (Hwrite' : forall passphrase private_key kwargs self0 env0,
    lock_inv self0 ->
    lock_inv (KA.write passphrase private_key kwargs (self0, env0)).1.1).
  { intros [p|] private_key kwargs self0 env0 Hinv; [by apply Hwrite|].
    rewrite write_none_run. destruct (prompt_answers env0); [done|by apply Hwrite]. }
  split; [discriminate|]. split.
  - intros Hinv. split; [intros; by apply get_key_lock_inv|].
    split; [intros; by apply Hwrite'|]. split.
    + intros network. unfold KA.delete. unfold bind at 1. rewrite prompt_run.
      destruct (prompt_answers env) as [|p rest]; [done|].
      unfold bind at 1. rewrite decrypt_run. cbn [data_folder set_prompt_answers].
      destruct (decrypt_outcome _ p) as [k|]; [|done].
      unfold bind at 1. rewrite deployments_run. cbn [data_folder set_prompt_answers].
      destruct (deployments_of _) as [ds|]; [|done].
      destruct (filter _ ds) as [|d0 rem]; [|by apply Hwrite].
      unfold KA.unlink, KA.self_, bind, gets, modify, raise. cbn.
      by destruct (data_folder env !! key_file_path self).
    + intros net addr. unfold KA.add_deployment, KA._get_passphrase_from_prompt.
      unfold bind at 1. rewrite prompt_run.
      destruct (prompt_answers env) as [|p rest]; [done|].
      unfold bind at 1. rewrite deployments_run. cbn [data_folder set_prompt_answers].
      destruct (deployments_of _) as [ds|]; [|done].
      unfold bind at 1.
      pose proof (get_key_lock_inv (Some p) self (set_prompt_answers rest env) Hinv) as Hk.
      destruct (KA._get_key (Some p) _) as [[self1 env1] [k|]]; [|done].
      by rewrite write_run.
  - unfold KA.change_password, KA._get_passphrase_from_prompt, KA.set_self.
    unfold bind at 1. cbn [modify fst snd].
    assert (Hl : lock_inv (set_locked true self)) by discriminate.
    unfold bind at 1. rewrite prompt_run.
    destruct (prompt_answers env) as [|p rest]; [done|].
    unfold bind at 1.
    pose proof (get_key_lock_inv (Some p) _ (set_prompt_answers rest env) Hl) as Hk.
    destruct (KA._get_key (Some p) _) as [[self1 env1] [k|]]; [|done].
    by apply Hwrite'.
Qed.

(** X7. Once [_get_key] has returned the key of an account object that
    satisfies the invariant, every later call returns that key at once, with
    any passphrase argument or none, without a prompt and without reading
    the key file: neither the passphrase nor the file is looked at again. *)
Theorem get_key_cached_reuse (passphrase : option string) self env
  (self' : KeyfileAccount) (env' : Env) (key : Z) :
  lock_inv self ->
  KA._get_key passphrase (self, env) = ((self', env'), Ok key) ->
  locked self' = false /\ __cached_key self' = Some key /\
  forall (passphrase' : option string) (env'' : Env),
    KA._get_key passphrase' (self', env'') = ((self', env''), Ok key).
Proof.
  intros Hinv Hrun.
  assert (Hshape : locked self' = false /\ __cached_key self' = Some key).
  { destruct (locked self) eqn:Hl.
    - assert (Hsome : forall p env0,
        KA._get_key (Some p) (self, env0) = ((self', env'), Ok key) ->
        locked self' = false /\ __cached_key self' = Some key).
      { intros p env0. rewrite get_key_some_locked by done.
        destruct (decrypt_outcome _ p); [|discriminate]. by intros [= <- _ <-]. }
      destruct passphrase as [p|]; [by eapply Hsome|].
      rewrite get_key_none_prompted in Hrun by auto.
      destruct (prompt_answers env); [discriminate | by eapply Hsome].
    - destruct (Hinv Hl) as [k Hk].
      assert (Hret : KA._get_key passphrase (self, env) = ((self, env), Ok k)).
      { unfold KA._get_key, KA.self_, bind, gets, ret; cbn. by rewrite Hk, Hl. }
      rewrite Hret in Hrun. by injection Hrun as <- <- <-. }
  destruct Hshape as [Hl Hk]. split; [done|]. split; [done|].
  intros passphrase' env''.
  unfold KA._get_key, KA.self_, bind, gets, ret; cbn. by rewrite Hk, Hl.
Qed.

(** X8. [change_password] with a passphrase that does not open the key
    file locks the account: the exception of the decryption is raised and
    the account object is left locked and without a cached key, also when
    it was unlocked before. Only the answer to the first prompt is used. *)
Theorem change_password_wrong_passphrase_locks self env p (rest : list string)
  (e : Exc) :
  prompt_answers env = p :: rest ->
  decrypt_outcome (data_folder env !! key_file_path self) p = Raise e ->
  KA.change_password (self, env)
  = (({| key_file_path := key_file_path self; locked := true; __cached_key := None |},
      set_prompt_answers rest env), Raise e).
Proof.
  intros Hp Hdec.
  unfold KA.change_password, KA._get_passphrase_from_prompt, KA.set_self.
  unfold bind at 1. cbn [modify fst snd].
  unfold bind at 1. rewrite prompt_run. cbn [prompt_answers]. rewrite Hp.
  unfold bind at 1. rewrite get_key_some_locked by done.
  cbn [key_file_path set_locked data_folder set_prompt_answers]. by rewrite Hdec.
Qed.
End LockState.


(** ** Importing and loading back *)

Section RoundTrips.
Context {E : Externals} {G : Signing}.
Implicit Types (self : KeyfileAccount) (reg : Registry) (env : Env)
  (alias net addr p : string).



(** X10. Importing an alias on the local network and loading it back gives
    the ephemeral account with the imported key: [_get_key] returns it
    without a prompt, [sign_message] signs with it, and
    [contract_address] on the local network is the imported address. *)
Theorem import_local_then_load alias net addr (pk : PrivateKeyArg) (k : Z)
  (msg : SignableMessage) reg env :
  key_of pk = Some k ->
  _clean_network_name net = LOCAL_NETWORK_NAME ->
  network env = LOCAL_NETWORK_NAME ->
  let r1 := AC.import_account alias net addr pk (reg, env) in
  r1.2 = Ok tt /\
  exists raw : Dict,
    AC.load alias r1.1 = (r1.1, Ok (Ephemeral raw alias)) /\
    StarknetEphemeralAccount._get_key raw env = (env, Ok (JInt k)) /\
    StarknetEphemeralAccount.sign_message raw msg env
    = (env, Ok (sign_calldata (as_calldata msg) k)) /\
    BaseStarknetAccount.contract_address (Ephemeral raw alias) env
    = (env, Ok (decode_address addr)).
Proof.
  intros Hkey Hnet Hlocal r1. subst r1.
  rewrite import_account_run, Hkey, Hnet, String.eqb_refl. cbn [fst snd].
  split; [done|]. eexists. rewrite load_run. cbn [ephemeral_accounts set_ephemeral_accounts].
  rewrite lookup_insert_eq. split; [reflexivity|].
  assert (Hk : ephemeral_data k LOCAL_NETWORK_NAME addr !! "private_key" = Some (JInt k)).
  { unfold ephemeral_data, deployment_data. rewrite lookup_union_r by done.
    by rewrite lookup_insert_ne, lookup_insert_eq. }
  split; [|split].
  - unfold StarknetEphemeralAccount._get_key, getitem. by rewrite Hk.
  - unfold StarknetEphemeralAccount.sign_message, StarknetEphemeralAccount._get_key,
      getitem, bind. by rewrite Hk.
  - rewrite contract_address_run. cbn [account_data].
    unfold deployments_of, ephemeral_data, deployment_data.
    erewrite lookup_union_Some_l by apply lookup_insert_eq.
    cbn. by rewrite Hlocal.
Qed.
End RoundTrips.


(** ** The container: accounts, cache and aliases *)

Section ContainerMore.
Context {E : Externals}.
Implicit Types (self : KeyfileAccount) (reg : Registry) (env : Env)
  (alias : string).

(** The loop of [accounts] over the key files. *)
Lemma accounts_loop_run (l : list string) reg env :
  exists reg',
    for_each
      (fun key_file_path : string =>
         bind (gets (fun s : AC.St => cached_accounts s.1))
           (fun cached =>
              match cached !! key_file_path with
              | Some account => ret (Keyfile account)
              | None =>
                  bind
                    (modify (fun s : AC.St =>
                               (set_cached_accounts
                                  (<[key_file_path := new_keyfile_account key_file_path]>
                                     (cached_accounts s.1)) s.1, s.2)))
                    (fun _ => ret (Keyfile (new_keyfile_account key_file_path)))
              end))
      l (reg, env)
    = ((reg', env),
       Ok ((fun path => Keyfile (default (new_keyfile_account path)
                                   (cached_accounts reg !! path))) <$> l)) /\
    ephemeral_accounts reg' = ephemeral_accounts reg /\
    forall a,
      cached_accounts reg' !! a
      = match cached_accounts reg !! a with
        | Some account => Some account
        | None => if bool_decide (a ∈ l) then Some (new_keyfile_account a) else None
        end.
Proof.
  revert reg. induction l as [|path l IH]; intros reg.
  - exists reg. split; [done|]. split; [done|].
    intros a. destruct (cached_accounts reg !! a); [done|].
    rewrite bool_decide_eq_false_2; [done|apply not_elem_of_nil].
  - cbn [for_each]. unfold bind at 1. unfold bind at 1. cbn [gets fst snd].
    destruct (cached_accounts reg !! path) as [account|] eqn:Hc.
    + cbn [ret]. unfold bind at 1.
      destruct (IH reg) as (reg' & -> & Heph & Hcache).
      exists reg'. split; [|split; [done|]].
      * unfold ret. cbn [fmap list_fmap]. by rewrite Hc.
      * intros a. rewrite Hcache. destruct (cached_accounts reg !! a) eqn:Ha; [done|].
        destruct (decide (a = path)) as [->|Hne]; [congruence|].
        destruct (bool_decide (a ∈ l)) eqn:Hin.
        -- rewrite bool_decide_eq_true_2; [done|].
           apply elem_of_cons. right. by apply bool_decide_eq_true in Hin.
        -- rewrite bool_decide_eq_false_2; [done|].
           intros [?|?]%elem_of_cons; [done|].
           by apply bool_decide_eq_false in Hin.
    + unfold bind at 1. cbn [modify fst snd ret].
      set (reg1 := set_cached_accounts _ reg). unfold bind at 1.
      destruct (IH reg1) as (reg' & -> & Heph & Hcache).
      exists reg'. split; [|split; [done|]].
      * unfold ret. cbn [fmap list_fmap]. rewrite Hc. cbn [default].
        do 3 f_equal. apply list_fmap_ext. intros i path' Hi.
        subst reg1. cbn [cached_accounts set_cached_accounts].
        destruct (decide (path = path')) as [->|Hne].
        -- by rewrite lookup_insert_eq, Hc.
        -- by rewrite lookup_insert_ne.
      * intros a. rewrite Hcache. subst reg1.
        cbn [cached_accounts set_cached_accounts].
        destruct (decide (path = a)) as [->|Hne].
        -- rewrite lookup_insert_eq, Hc.
           rewrite bool_decide_eq_true_2; [done|by left].
        -- rewrite lookup_insert_ne by done.
           destruct (cached_accounts reg !! a); [done|].
           destruct (bool_decide (a ∈ l)) eqn:Hin.
           ++ rewrite bool_decide_eq_true_2; [done|].
              apply elem_of_cons. right. by apply bool_decide_eq_true in Hin.
           ++ rewrite bool_decide_eq_false_2; [done|].
              intros [?|?]%elem_of_cons; [done|].
              by apply bool_decide_eq_false in Hin.
Qed.

(** X11. [accounts] always returns. It yields one account per alias, and
    with a well-formed cache the aliases of the accounts are the aliases
    listed by [aliases], in the same order. It changes nothing but the
    cache, where it keeps every entry and leaves an entry for every key
    file, and the cache stays well formed. *)
Theorem accounts_spec reg env :
  exists (l : list Account) (reg' : Registry),
    AC.accounts (reg, env) = ((reg', env), Ok l) /\
    ephemeral_accounts reg' = ephemeral_accounts reg /\
    (forall known, AC.aliases (reg, env) = ((reg, env), Ok known) ->
       length l = length known /\
       (cache_wf reg -> BaseStarknetAccount.alias <$> l = known)) /\
    (forall alias account,
       cached_accounts reg !! alias = Some account ->
       cached_accounts reg' !! alias = Some account) /\
    (forall alias, is_Some (data_folder env !! alias) ->
                   is_Some (cached_accounts reg' !! alias)) /\
    (cache_wf reg -> cache_wf reg').
Proof.
  unfold AC.accounts. unfold bind at 1. cbn [gets fst snd].
  unfold bind at 1. unfold AC._key_file_paths at 1. cbn [gets fst snd].
  destruct (accounts_loop_run (map_to_list (data_folder env)).*1 reg env)
    as (reg' & Hloop & Heph & Hcache).
  unfold bind at 1. rewrite Hloop. cbn [ret].
  eexists _, reg'. split; [reflexivity|]. split; [exact Heph|].
  split; [|split; [|split]].
  - intros known [= <-]. split.
    + rewrite !length_app. by rewrite ?length_map, ?length_fmap.
    + intros Hwf. rewrite fmap_app. f_equal.
      * rewrite <- list_fmap_compose. apply list_fmap_ext. by intros i [a d] _.
      * rewrite <- list_fmap_compose. rewrite <- (list_fmap_id (_.*1)) at 2.
        apply list_fmap_ext. intros i path _. cbn.
        destruct (cached_accounts reg !! path) eqn:Hc; [by apply Hwf|done].
  - intros alias account Hc. by rewrite Hcache, Hc.
  - intros alias [d Hd]. rewrite Hcache.
    destruct (cached_accounts reg !! alias); [by eexists|].
    rewrite bool_decide_eq_true_2; [by eexists|].
    apply list_elem_of_fmap. exists (alias, d). split; [done|].
    by apply elem_of_map_to_list.
  - intros Hwf alias account. rewrite Hcache.
    destruct (cached_accounts reg !! alias) eqn:Hc; [intros [= <-]; by apply Hwf|].
    destruct (bool_decide _); [by intros [= <-] | discriminate].
Qed.

Lemma keyfile_delete_path (network : string) self env :
  key_file_path (KA.delete network (self, env)).1.1 = key_file_path self.
Proof.
  unfold KA.delete. unfold bind at 1. rewrite prompt_run.
  destruct (prompt_answers env) as [|p rest]; [done|].
  unfold bind at 1. rewrite decrypt_run. cbn [data_folder set_prompt_answers].
  destruct (decrypt_outcome _ p) as [k|]; [|done].
  unfold bind at 1. rewrite deployments_run. cbn [data_folder set_prompt_answers].
  destruct (deployments_of _) as [ds|]; [|done].
  destruct (filter _ ds) as [|d0 rem].
  - unfold KA.unlink, KA.self_, bind, gets, modify, raise. cbn.
    by destruct (data_folder env !! key_file_path self).
  - rewrite write_from_file_run.
    destruct (get_key_some_frame p self (set_prompt_answers rest env))
      as (self' & r & -> & Hpath).
    destruct r; [by rewrite write_run | done].
Qed.

Lemma elem_of_keys_insert {A : Type} (m : gmap string A) alias (x : A) :
  alias ∈ (map_to_list (<[alias := x]> m)).*1.
Proof.
  apply list_elem_of_fmap. exists (alias, x). split; [done|].
  apply elem_of_map_to_list, lookup_insert_eq.
Qed.

(** X12. The cache stays well formed, each object under the alias of its
    own key file, through every operation of the container, whatever the
    outcome of the operation. *)
Theorem cache_wf_kept reg env :
  cache_wf reg ->
  (forall alias, cache_wf (AC.load_key_file_account alias (reg, env)).1.1) /\
  (forall alias, cache_wf (AC.load alias (reg, env)).1.1) /\
  (forall alias net addr pk, cache_wf (AC.import_account alias net addr pk (reg, env)).1.1) /\
  (forall alias private_key, cache_wf (AC.deploy_account alias private_key (reg, env)).1.1) /\
  (forall alias network, cache_wf (AC.delete_account alias network (reg, env)).1.1).
Proof.
  intros Hwf.
  assert (Hins : forall alias (account : KeyfileAccount) reg0,
    cache_wf reg0 -> key_file_path account = alias ->
    cache_wf (set_cached_accounts (<[alias := account]> (cached_accounts reg0)) reg0)).
  { intros alias account reg0 Hwf0 Hpath a acct. cbn.
    destruct (decide (alias = a)) as [->|Hne].
    - rewrite lookup_insert_eq. by intros [= <-].
    - rewrite lookup_insert_ne by done. apply Hwf0. }
  assert (Hload : forall alias env0,
    cache_wf (AC.load_key_file_account alias (reg, env0)).1.1 /\
    forall account, (AC.load_key_file_account alias (reg, env0)).2 = Ok account ->
                    key_file_path account = alias).
  { intros alias env0. rewrite load_key_file_account_run.
    destruct (cached_accounts reg !! alias) as [account|] eqn:Hc.
    - split; [done|]. intros ? [= <-]. by apply Hwf.
    - destruct (data_folder env0 !! alias); cbn; [|by split].
      split; [by apply Hins|]. by intros ? [= <-]. }
  assert (Himport : forall alias net addr pk env0,
    cache_wf (AC.import_account alias net addr pk (reg, env0)).1.1).
  { intros alias net addr pk env0. rewrite import_account_run.
    destruct (key_of pk); [|done]. destruct (String.eqb _ _); [done|].
    by destruct (prompt_answers env0). }
  split; [intros; apply Hload|]. split; [|split; [|split]].
  - intros alias. rewrite load_run.
    destruct (ephemeral_accounts reg !! alias); [done|].
    pose proof (proj1 (Hload alias env)) as Hl.
    by destruct (AC.load_key_file_account alias (reg, env)) as [s [account|e]].
  - intros. apply Himport.
  - intros alias private_key. rewrite deploy_account_run. cbn zeta.
    destruct (existsb _ _); [done|].
    destruct (send_transaction env _) as [receipt|e]; [|done].
    destruct (receipt_contract_address receipt) as [contract_address|]; [|done].
    destruct (String.eqb contract_address ""); [done|].
    match goal with
    | |- context [AC.import_account ?a ?n ?c ?k (reg, ?e0)] =>
        pose proof (Himport a n c k e0) as Hi;
        destruct (AC.import_account a n c k (reg, e0)) as [s [[]|e]]
    end; done.
  - intros alias network. unfold AC.delete_account. unfold bind at 1.
    set (net := match network with
                | Some n => if String.eqb n "" then AC.provider_network_name else ret n
                | None => AC.provider_network_name
                end).
    assert (Hnet : exists n, net (reg, env) = ((reg, env), Ok n)).
    { subst net. destruct network as [n|]; [destruct (String.eqb n "")|]; by eexists. }
    destruct Hnet as (n & ->).
    unfold bind at 1. cbn [gets fst snd].
    destruct (ephemeral_accounts reg !! alias); [done|].
    unfold bind at 1.
    destruct (Hload alias env) as [Hl1 Hl2].
    destruct (AC.load_key_file_account alias (reg, env)) as [[reg1 env1] [account|e]];
      [|done].
    unfold AC.call_cached. cbn [fst snd].
    pose proof (keyfile_delete_path n account env1) as Hpath.
    destruct (KA.delete n (account, env1)) as [[account' env'] r]. cbn in *.
    apply Hins; [done|]. rewrite Hpath. by apply Hl2.
Qed.

(** X13. An alias under which [deploy_account] has deployed an account is
    taken, on the local network and, for an alias that is a non-empty file
    name, on every network: a second [deploy_account] with that alias
    raises the already-exists error and changes nothing. *)
Theorem deploy_account_twice alias (private_key private_key' : option Z) reg env
  (s1 : AC.St) (addr : string) :
  _clean_network_name (network env) = LOCAL_NETWORK_NAME
  \/ (alias <> "" /\ is_file_name alias = true) ->
  AC.deploy_account alias private_key (reg, env) = (s1, Ok addr) ->
  AC.deploy_account alias private_key' s1
  = (s1, Raise (AccountsError (AlreadyExists alias))).
Proof.
  intros Hplace. rewrite deploy_account_run. cbn zeta.
  destruct (existsb _ _); [discriminate|].
  destruct (send_transaction env _) as [receipt|e]; [|discriminate].
  destruct (receipt_contract_address receipt) as [contract_address|]; [|discriminate].
  destruct (String.eqb contract_address ""); [discriminate|].
  rewrite import_account_run. cbn [key_of].
  assert (Hknown : forall reg1 env1,
    alias ∈ (map_to_list (ephemeral_accounts reg1)).*1
    \/ alias ∈ (map_to_list (data_folder env1)).*1 ->
    AC.deploy_account alias private_key' (reg1, env1)
    = ((reg1, env1), Raise (AccountsError (AlreadyExists alias)))).
  { intros reg1 env1 Hin. rewrite deploy_account_run. cbn zeta.
    rewrite (proj2 (existsb_eqb_elem_of alias _)); [done|].
    apply elem_of_app. exact Hin. }
  destruct (String.eqb_spec (_clean_network_name (network env)) LOCAL_NETWORK_NAME)
    as [Hlocal|Hlocal].
  - intros [= <- _]. apply Hknown. left. apply elem_of_keys_insert.
  - destruct Hplace as [Hplace|[Halias _]]; [contradiction|].
    rewrite (key_file_stem_alias alias Halias).
    match goal with |- context [prompt_answers ?e0] =>
      destruct (prompt_answers e0) as [|p rest] end; [discriminate|].
    intros [= <- _]. apply Hknown. right. apply elem_of_keys_insert.
Qed.

(** X14. [load] is idempotent: a second [load] of the same alias gives the
    same result, account or exception, and leaves the state where the
    first one left it. *)
Theorem load_idempotent alias reg env (s1 : AC.St) (r : Result Account) :
  AC.load alias (reg, env) = (s1, r) ->
  AC.load alias s1 = (s1, r).
Proof.
  rewrite load_run, load_key_file_account_run.
  destruct (ephemeral_accounts reg !! alias) as [d|] eqn:He.
  { intros [= <- <-]. by rewrite load_run, He. }
  destruct (cached_accounts reg !! alias) as [account|] eqn:Hc.
  { intros [= <- <-]. by rewrite load_run, He, load_key_file_account_run, Hc. }
  destruct (data_folder env !! alias) as [d|] eqn:Hf.
  - intros [= <- <-]. rewrite load_run. cbn [ephemeral_accounts set_cached_accounts].
    rewrite He, load_key_file_account_run. cbn [cached_accounts set_cached_accounts].
    by rewrite lookup_insert_eq.
  - intros [= <- <-]. by rewrite load_run, He, load_key_file_account_run, Hc, Hf.
Qed.

(** X15. [delete_account] of an alias that is in [ephemeral_accounts]
    drops that entry and does nothing else: no prompt, no change to the
    key files or to the cache, also when a key file of the same alias
    exists. After it [load] of the alias no longer gives an ephemeral
    account: it gives what [load_key_file_account] gives. *)
Theorem delete_account_ephemeral alias (network : option string) (d : Dict) reg env :
  ephemeral_accounts reg !! alias = Some d ->
  let s' := (set_ephemeral_accounts (base.delete alias (ephemeral_accounts reg)) reg, env) in
  AC.delete_account alias network (reg, env) = (s', Ok tt) /\
  AC.load alias s'
  = match AC.load_key_file_account alias s' with
    | (s, Ok account) => (s, Ok (Keyfile account))
    | (s, Raise e) => (s, Raise e)
    end.
Proof.
  intros He s'. split.
  - unfold AC.delete_account. unfold bind at 1.
    assert (Hnet : exists n,
      match network with
      | Some n => if String.eqb n "" then AC.provider_network_name else ret n
      | None => AC.provider_network_name
      end (reg, env) = ((reg, env), Ok n)).
    { destruct network as [n|]; [destruct (String.eqb n "")|]; by eexists. }
    destruct Hnet as (n & ->).
    unfold bind at 1. cbn [gets fst snd]. by rewrite He.
  - subst s'. rewrite load_run. cbn [ephemeral_accounts set_ephemeral_accounts].
    by rewrite lookup_delete_eq.
Qed.
End ContainerMore.

(** ** Signing with a key-file account *)

Section SignMessage.
Context {E : Externals} {G : Signing}.
Implicit Types (self : KeyfileAccount) (env : Env) (p : string).

(** X16. [sign_message] with the passphrase of a locked account signs the
    message, a single value as a list of one, with the key of the key file
    and leaves the account unlocked; [sign_message] then signs with the
    same key at once, whatever passphrase it is given and whatever has
    become of the environment. *)
Theorem sign_message_unlocks (msg : SignableMessage) self env p (key : Z) :
  locked self = true ->
  decrypt_outcome (data_folder env !! key_file_path self) p = Ok key ->
  let unlocked :=
    {| key_file_path := key_file_path self; locked := false;
       __cached_key := Some key |} in
  KA.sign_message msg (Some p) (self, env)
  = ((unlocked, env), Ok (sign_calldata (as_calldata msg) key)) /\
  forall (msg' : SignableMessage) (passphrase' : option string) (env' : Env),
    KA.sign_message msg' passphrase' (unlocked, env')
    = ((unlocked, env'), Ok (sign_calldata (as_calldata msg') key)).
Proof.
  intros Hl Hdec unlocked. split.
  - unfold KA.sign_message, bind. rewrite get_key_some_locked by done.
    by rewrite Hdec.
  - intros msg' passphrase' env'.
    unfold KA.sign_message, bind, KA._get_key, KA.self_, gets, ret. by cbn.
Qed.
End SignMessage.


Section MoreExamples.
#[local] Existing Instance Sample.externals.
#[local] Existing Instance Sample.signing.

Lemma deployments_stay_unique_witness :
  let self := new_keyfile_account "bob" in
  let env := Sample.env {["bob" := Sample.bob_file]} "testnet" ["old"] [] in
  (let s' := (KA.add_deployment "mainnet" "0xM" (self, env)).1 in
   exists ds', BaseStarknetAccount.deployments (Keyfile s'.1) s'.2 = (s'.2, Ok ds') /\
               unique_networks ds') /\
  (let s' := (KA.delete "mainnet" (self, env)).1 in
   data_folder s'.2 !! key_file_path self = None \/
   exists ds', BaseStarknetAccount.deployments (Keyfile self) s'.2 = (s'.2, Ok ds') /\
               unique_networks ds').
Proof.
  intros self env.
  assert (Hds : BaseStarknetAccount.deployments (Keyfile self) env
                = (env, Ok [{| StarknetAccountDeployment.network_name := "testnet";
                               StarknetAccountDeployment.contract_address := "0xAB" |}]))
    by reflexivity.
  assert (Hu : unique_networks
                 [{| StarknetAccountDeployment.network_name := "testnet";
                     StarknetAccountDeployment.contract_address := "0xAB" |}])
    by apply NoDup_singleton.
  split.
  - intros s'.
    apply (proj1 (deployments_stay_unique self env _ s' Hds Hu) "mainnet" "0xM").
    vm_compute. reflexivity.
  - intros s'.
    apply (proj2 (deployments_stay_unique self env _ s' Hds Hu) "mainnet").
    vm_compute. reflexivity.
Defined.

Lemma add_deployment_keeps_other_networks_witness :
  let self := new_keyfile_account "bob" in
  let env := Sample.env {["bob" := Sample.bob_file]} "testnet" ["old"] [] in
  let s' := (KA.add_deployment "alpha-mainnet" "0xM" (self, env)).1 in
  exists ds',
    BaseStarknetAccount.deployments (Keyfile s'.1) s'.2 = (s'.2, Ok ds') /\
    last ds' = Some {| StarknetAccountDeployment.network_name := _clean_network_name "alpha-mainnet";
                       StarknetAccountDeployment.contract_address := "0xM" |} /\
    (length ds' <= 2)%nat /\
    {| StarknetAccountDeployment.network_name := "testnet";
       StarknetAccountDeployment.contract_address := "0xAB" |} ∈ ds'.
Proof.
  intros self env s'.
  destruct (add_deployment_keeps_other_networks self env _ "alpha-mainnet" "0xM" s'
              eq_refl) as (ds' & Hds' & Hlast & Hlen & Hkeep).
  { vm_compute. reflexivity. }
  exists ds'. split; [exact Hds'|]. split; [exact Hlast|]. split; [exact Hlen|].
  apply Hkeep.
  - by left.
  - unfold network_tokens. cbn. by right; right; left.
  - vm_compute. discriminate.
Defined.

Lemma get_deployment_after_add_deployment_witness :
  let self := new_keyfile_account "bob" in
  let env := Sample.env {["bob" := Sample.bob_file]} "testnet" ["old"] [] in
  let s' := (KA.add_deployment "alpha-mainnet" "0xM" (self, env)).1 in
  BaseStarknetAccount.get_deployment (Keyfile s'.1) (_clean_network_name "alpha-mainnet") s'.2
  = (s'.2, Ok (Some {| StarknetAccountDeployment.network_name := _clean_network_name "alpha-mainnet";
                       StarknetAccountDeployment.contract_address := "0xM" |})) /\
  exists d, BaseStarknetAccount.get_deployment (Keyfile s'.1) "alpha-mainnet" s'.2
            = (s'.2, Ok (Some d)).
Proof.
  intros self env s'.
  apply (get_deployment_after_add_deployment self env "alpha-mainnet" "0xM" s').
  vm_compute. reflexivity.
Defined.


Lemma lock_inv_kept_witness :
  let self := {| key_file_path := "bob"; locked := false; __cached_key := Some 1 |} in
  let env := Sample.env {["bob" := Sample.bob_file]} "testnet" ["old"] [] in
  lock_inv (KA._get_key None (self, env)).1.1 /\
  lock_inv (KA.delete "testnet" (self, env)).1.1 /\
  lock_inv (KA.add_deployment "mainnet" "0xM" (self, env)).1.1.
Proof.
  intros self env.
  assert (Hinv : lock_inv self) by (intros _; by eexists).
  destruct (proj1 (proj2 (lock_inv_kept self env)) Hinv) as (Hk & _ & Hd & Ha).
  split; [apply Hk|]. split; [apply Hd|apply Ha].
Defined.

Lemma get_key_cached_reuse_witness :
  let self := new_keyfile_account "bob" in
  let env := Sample.env {["bob" := Sample.bob_file]} "testnet" ["old"] [] in
  let self' := {| key_file_path := "bob"; locked := false; __cached_key := Some 1 |} in
  locked self' = false /\ __cached_key self' = Some 1 /\
  forall (passphrase' : option string) (env'' : Env),
    KA._get_key passphrase' (self', env'') = ((self', env''), Ok 1).
Proof.
  intros self env self'.
  apply (get_key_cached_reuse None self env self'
           (Sample.env {["bob" := Sample.bob_file]} "testnet" [] []) 1).
  - discriminate.
  - vm_compute. reflexivity.
Defined.

Lemma change_password_wrong_passphrase_locks_witness :
  let self := {| key_file_path := "bob"; locked := false; __cached_key := Some 1 |} in
  let env := Sample.env {["bob" := Sample.bob_file]} "testnet" ["wrong"; "new"] [] in
  KA.change_password (self, env)
  = (({| key_file_path := "bob"; locked := true; __cached_key := None |},
      set_prompt_answers ["new"] env), Raise MacMismatch).
Proof.
  intros self env.
  apply (change_password_wrong_passphrase_locks self env "wrong" ["new"] MacMismatch);
    reflexivity.
Defined.


Lemma import_local_then_load_witness :
  let reg := Sample.registry ∅ in
  let env := Sample.env ∅ "local" [] [] in
  let r1 := AC.import_account "eve" "local" "0x1" (KeyInt 5) (reg, env) in
  r1.2 = Ok tt /\
  exists raw : Dict,
    AC.load "eve" r1.1 = (r1.1, Ok (Ephemeral raw "eve")) /\
    StarknetEphemeralAccount._get_key raw env = (env, Ok (JInt 5)) /\
    StarknetEphemeralAccount.sign_message raw (Felt 500) env
    = (env, Ok (sign_calldata [500] 5)) /\
    BaseStarknetAccount.contract_address (Ephemeral raw "eve") env
    = (env, Ok (decode_address "0x1")).
Proof.
  intros reg env r1.
  apply (import_local_then_load "eve" "local" "0x1" (KeyInt 5) 5 (Felt 500) reg env);
    reflexivity.
Defined.

Lemma accounts_spec_witness :
  let reg := Sample.registry {["eve" := Sample.eve_data]} in
  let env := Sample.env {["bob" := Sample.bob_file]} "local" [] [] in
  exists (l : list Account) (reg' : Registry),
    AC.accounts (reg, env) = ((reg', env), Ok l) /\
    length l = 2%nat /\
    BaseStarknetAccount.alias <$> l = ["eve"; "bob"] /\
    is_Some (cached_accounts reg' !! "bob") /\
    cache_wf reg'.
Proof.
  intros reg env.
  destruct (accounts_spec reg env) as (l & reg' & Hrun & _ & Hal & _ & Hfiles & Hwf).
  assert (Hwf0 : cache_wf reg) by (intros a acct Ha; vm_compute in Ha; discriminate).
  destruct (Hal ["eve"; "bob"] eq_refl) as [Hlen Halias].
  exists l, reg'. split; [exact Hrun|]. split; [exact Hlen|].
  split; [exact (Halias Hwf0)|]. split; [|exact (Hwf Hwf0)].
  apply Hfiles. by eexists.
Defined.

Lemma cache_wf_kept_witness :
  let reg := Sample.registry ∅ in
  let env := Sample.env {["bob" := Sample.bob_file]} "testnet" ["old"] [] in
  cache_wf (AC.load "bob" (reg, env)).1.1 /\
  cache_wf (AC.delete_account "bob" None (reg, env)).1.1 /\
  cache_wf (AC.deploy_account "carol" None (reg, env)).1.1.
Proof.
  intros reg env.
  assert (Hwf0 : cache_wf reg) by (intros a acct Ha; vm_compute in Ha; discriminate).
  destruct (cache_wf_kept reg env Hwf0) as (_ & Hl & _ & Hd & Hdel).
  split; [apply Hl|]. split; [apply Hdel|apply Hd].
Defined.

Lemma deploy_account_twice_witness :
  (let reg := Sample.registry ∅ in
   let env := Sample.env ∅ "local" [] [] in
   let s1 := (AC.deploy_account "carol" (Some 5) (reg, env)).1 in
   AC.deploy_account "carol" None s1
   = (s1, Raise (AccountsError (AlreadyExists "carol")))) /\
  (let reg := Sample.registry ∅ in
   let env := Sample.env ∅ "testnet" ["pw"] [] in
   let s1 := (AC.deploy_account "carol" (Some 5) (reg, env)).1 in
   AC.deploy_account "carol" None s1
   = (s1, Raise (AccountsError (AlreadyExists "carol")))).
Proof.
  split; intros reg env s1.
  - apply (deploy_account_twice "carol" (Some 5) None reg env s1 "0xCD").
    + left. reflexivity.
    + vm_compute. reflexivity.
  - apply (deploy_account_twice "carol" (Some 5) None reg env s1 "0xCD").
    + right. split; [discriminate|reflexivity].
    + vm_compute. reflexivity.
Defined.

Lemma load_idempotent_witness :
  let reg := Sample.registry ∅ in
  let env := Sample.env {["bob" := Sample.bob_file]} "testnet" [] [] in
  let r := AC.load "bob" (reg, env) in
  AC.load "bob" r.1 = (r.1, r.2) /\
  AC.load "nobody" (AC.load "nobody" (reg, env)).1
  = ((AC.load "nobody" (reg, env)).1, Raise (AccountsError (NotFound "nobody"))).
Proof.
  intros reg env r. split.
  - apply (load_idempotent "bob" reg env r.1 r.2). subst r.
    by destruct (AC.load "bob" (reg, env)).
  - apply (load_idempotent "nobody" reg env). vm_compute. reflexivity.
Defined.

Lemma delete_account_ephemeral_witness :
  let reg := Sample.registry {["bob" := Sample.eve_data]} in
  let env := Sample.env {["bob" := Sample.bob_file]} "local" [] [] in
  let s' := (set_ephemeral_accounts (base.delete "bob" (ephemeral_accounts reg)) reg, env) in
  AC.delete_account "bob" None (reg, env) = (s', Ok tt) /\
  AC.load "bob" s'
  = match AC.load_key_file_account "bob" s' with
    | (s, Ok account) => (s, Ok (Keyfile account))
    | (s, Raise e) => (s, Raise e)
    end.
Proof.
  intros reg env.
  apply (delete_account_ephemeral "bob" None Sample.eve_data reg env).
  reflexivity.
Defined.

Lemma sign_message_unlocks_witness :
  let self := new_keyfile_account "bob" in
  let env := Sample.env {["bob" := Sample.bob_file]} "testnet" [] [] in
  let unlocked := {| key_file_path := "bob"; locked := false; __cached_key := Some 1 |} in
  KA.sign_message (Felt 5) (Some "old") (self, env)
  = ((unlocked, env), Ok (sign_calldata [5] 1)) /\
  forall (msg' : SignableMessage) (passphrase' : option string) (env' : Env),
    KA.sign_message msg' passphrase' (unlocked, env')
    = ((unlocked, env'), Ok (sign_calldata (as_calldata msg') 1)).
Proof.
  intros self env unlocked.
  apply (sign_message_unlocks (Felt 5) self env "old" 1); reflexivity.
Defined.
End MoreExamples.

(** * The helpers of [_utils.py] *)

(** ** [get_chain_id] *)

Section ChainIdFacts.
Context (value : StarknetChainId -> Z).

Lemma chain_id_of_value_value (c : StarknetChainId) :
  value MAINNET <> value TESTNET ->
  chain_id_of_value value (value c) = Ok c.
Proof.
  intros Hne. unfold chain_id_of_value. destruct c.
  - by rewrite Z.eqb_refl.
  - destruct (Z.eqb_spec (value TESTNET) (value MAINNET)) as [Heq|_]; [by destruct Hne|].
    by rewrite Z.eqb_refl.
Qed.

Lemma get_chain_id_name (name : string) :
  get_chain_id value (NetworkName name)
  = if String.eqb name "local" then Ok TESTNET
    else if String.eqb name "mainnet" then chain_id_of_value value (value MAINNET)
    else if String.eqb name "testnet" then chain_id_of_value value (value TESTNET)
    else Raise ValueError.
Proof.
  unfold get_chain_id, LOCAL_NETWORK_NAME, NETWORKS.
  destruct (String.eqb_spec name "local") as [->|Hl]; [done|].
  destruct (String.eqb_spec name "mainnet") as [->|Hm]; [done|].
  destruct (String.eqb_spec name "testnet") as [->|Ht]; [done|].
  rewrite lookup_insert_ne by congruence.
  rewrite lookup_singleton_ne by congruence. done.
Qed.

(** X17. [get_chain_id] inverts [value] on numbers, knows exactly the three
    names, and gives the local network the chain id of the test network. *)
Theorem get_chain_id_spec :
  value MAINNET <> value TESTNET ->
  (forall c : StarknetChainId, get_chain_id value (NetworkNumber (value c)) = Ok c) /\
  (forall n : Z, n <> value MAINNET -> n <> value TESTNET ->
     get_chain_id value (NetworkNumber n) = Raise ValueError) /\
  (forall name : string,
     get_chain_id value (NetworkName name) = Ok MAINNET <-> name = "mainnet") /\
  (forall name : string,
     get_chain_id value (NetworkName name) = Ok TESTNET
     <-> name = "testnet" \/ name = "local") /\
  (forall name : string,
     name <> "local" -> name <> "mainnet" -> name <> "testnet" ->
     get_chain_id value (NetworkName name) = Raise ValueError).
Proof.
  intros Hne.
  pose proof (chain_id_of_value_value MAINNET Hne) as HM.
  pose proof (chain_id_of_value_value TESTNET Hne) as HT.
  split; [|split; [|split; [|split]]].
  - intros c. by apply chain_id_of_value_value.
  - intros n H1 H2. cbn. unfold chain_id_of_value.
    destruct (Z.eqb_spec n (value MAINNET)); [done|].
    by destruct (Z.eqb_spec n (value TESTNET)).
  - intros name. rewrite get_chain_id_name, HM, HT.
    destruct (String.eqb_spec name "local") as [->|Hl]; [split; discriminate|].
    destruct (String.eqb_spec name "mainnet") as [->|Hm]; [done|].
    destruct (String.eqb_spec name "testnet") as [->|Ht]; split; congruence.
  - intros name. rewrite get_chain_id_name, HM, HT.
    destruct (String.eqb_spec name "local") as [->|Hl]; [split; [by right|done]|].
    destruct (String.eqb_spec name "mainnet") as [->|Hm].
    { split; [discriminate|]. intros [H|H]; discriminate. }
    destruct (String.eqb_spec name "testnet") as [->|Ht]; [split; [by left|done]|].
    split; [discriminate|]. intros [H|H]; congruence.
  - intros name Hl Hm Ht. rewrite get_chain_id_name.
    destruct (String.eqb_spec name "local"); [done|].
    destruct (String.eqb_spec name "mainnet"); [done|].
    by destruct (String.eqb_spec name "testnet").
Qed.

(** X18. After [_clean_network_name] a name has a chain id exactly when one
    of the three network words occurs in it, whereas the name as it stands
    has one only when it is one of the three words. *)
Theorem get_chain_id_of_clean_name (name : string) :
  value MAINNET <> value TESTNET ->
  ((exists c, get_chain_id value (NetworkName (_clean_network_name name)) = Ok c)
   <-> exists token, token ∈ network_tokens /\ occurs_in token name) /\
  ((exists c, get_chain_id value (NetworkName name) = Ok c)
   <-> name ∈ network_tokens) /\
  (occurs_in "local" name ->
   get_chain_id value (NetworkName (_clean_network_name name)) = Ok TESTNET).
Proof.
  intros Hne.
  pose proof (chain_id_of_value_value MAINNET Hne) as HM.
  pose proof (chain_id_of_value_value TESTNET Hne) as HT.
  assert (Htok : forall t, t ∈ network_tokens <->
                           t = "local" \/ t = "mainnet" \/ t = "testnet").
  { intros t. unfold network_tokens.
    rewrite !elem_of_cons, elem_of_nil. split.
    - intros [H | [H | [H | H]]];
        [by left | by right; left | by right; right | done].
    - intros [H | [H | H]];
        [by left | by right; left | by right; right; left]. }
  assert (Hdirect : forall s, (exists c, get_chain_id value (NetworkName s) = Ok c)
                              <-> s ∈ network_tokens).
  { intros s. rewrite Htok, get_chain_id_name, HM, HT.
    destruct (String.eqb_spec s "local") as [->|Hl]; [split; [by left|by eexists]|].
    destruct (String.eqb_spec s "mainnet") as [->|Hm];
      [split; [by right; left|by eexists]|].
    destruct (String.eqb_spec s "testnet") as [->|Ht];
      [split; [by right; right|by eexists]|].
    split; [by intros [c Hc]|]. intros [H | [H | H]]; congruence. }
  destruct (clean_network_name_cases name) as (Hl & Hm & Ht & Hn).
  split; [|split].
  - rewrite Hdirect. split.
    + intros Hin. exists (_clean_network_name name). split; [done|].
      apply str_in_occurs, clean_network_name_occurs.
    + intros (token & Hin & Hocc).
      destruct (str_in "local" name) eqn:El.
      { apply str_in_occurs in El. rewrite (Hl El). apply Htok. by left. }
      apply str_in_false in El.
      destruct (str_in "mainnet" name) eqn:Em.
      { apply str_in_occurs in Em. rewrite (Hm El Em). apply Htok. by right; left. }
      apply str_in_false in Em.
      destruct (str_in "testnet" name) eqn:Et.
      { apply str_in_occurs in Et. rewrite (Ht El Em Et). apply Htok.
        by right; right. }
      apply str_in_false in Et.
      apply Htok in Hin as [-> | [-> | ->]]; contradiction.
  - apply Hdirect.
  - intros Hocc. rewrite (Hl Hocc). done.
Qed.
End ChainIdFacts.

(** ** Matching: [fullmatch] decides membership *)

Lemma nullable_spec (r : regex) : nullable r = true <-> lang r [].
Proof.
  induction r as [| |p|r1 IH1 r2 IH2|r1 IH1 r2 IH2|r IH]; cbn.
  - done.
  - done.
  - split; [done|]. by intros (c & Hc & _).
  - rewrite andb_true_iff, IH1, IH2. split.
    + intros [H1 H2]. by exists [], [].
    + intros (w1 & w2 & Hw & H1 & H2). symmetry in Hw.
      apply app_eq_nil in Hw as [-> ->]. done.
  - by rewrite orb_true_iff, IH1, IH2.
  - split; [|done]. intros _. exists []. by split; [|constructor].
Qed.

Lemma lang_seq (r1 r2 : regex) (w : list ascii) :
  lang (Seq r1 r2) w
  <-> exists w1 w2, w = (w1 ++ w2)%list /\ lang r1 w1 /\ lang r2 w2.
Proof. done. Qed.

Lemma star_unfold (r : regex) (c : ascii) (w : list ascii) :
  lang (Star r) (c :: w)
  <-> exists w1 w2, w = (w1 ++ w2)%list /\ lang r (c :: w1) /\ lang (Star r) w2.
Proof.
  split.
  - intros (ws & Hw & Hall). induction ws as [|x ws IH]; [done|].
    apply Forall_cons in Hall as [Hx Hall]. destruct x as [|c' x].
    + by apply IH.
    + cbn in Hw. injection Hw as -> ->. exists x, (concat ws).
      split; [done|]. split; [done|]. by exists ws.
  - intros (w1 & w2 & -> & H1 & ws & -> & Hall).
    exists ((c :: w1) :: ws). split; [done|]. by constructor.
Qed.

Lemma derivative_spec (c : ascii) (r : regex) (w : list ascii) :
  lang (derivative c r) w <-> lang r (c :: w).
Proof.
  revert w. induction r as [| |p|r1 IH1 r2 IH2|r1 IH1 r2 IH2|r IH]; intros w.
  - done.
  - done.
  - cbn. destruct (p c) eqn:Hp; cbn.
    + split; [intros ->; by exists c|]. by intros (c' & [= <- ->] & _).
    + split; [done|]. intros (c' & [= <- ->] & Hc). congruence.
  - assert (Hseq : (exists w1 w2, w = (w1 ++ w2)%list /\ lang r1 (c :: w1) /\ lang r2 w2)
                   \/ (lang r1 [] /\ lang r2 (c :: w))
                   <-> lang (Seq r1 r2) (c :: w)).
    { cbn. split.
      - intros [(w1 & w2 & -> & H1 & H2) | [H1 H2]].
        + by exists (c :: w1), w2.
        + by exists [], (c :: w).
      - intros (w1 & w2 & Hw & H1 & H2). destruct w1 as [|c' w1].
        + right. cbn in Hw. by subst w2.
        + left. injection Hw as <- ->. by exists w1, w2. }
    rewrite <- Hseq. cbn [derivative].
    destruct (nullable r1) eqn:Hn; cbn [lang].
    + rewrite IH2. apply nullable_spec in Hn. split.
      * intros [(w1 & w2 & -> & H1 & H2) | H2].
        -- left. exists w1, w2. by rewrite <- IH1.
        -- by right.
      * intros [(w1 & w2 & -> & H1 & H2) | [_ H2]].
        -- left. exists w1, w2. by rewrite IH1.
        -- by right.
    + split.
      * intros (w1 & w2 & -> & H1 & H2). left. exists w1, w2. by rewrite <- IH1.
      * intros [(w1 & w2 & -> & H1 & H2) | [H1 _]].
        -- exists w1, w2. by rewrite IH1.
        -- apply nullable_spec in H1. congruence.
  - cbn. by rewrite IH1, IH2.
  - rewrite star_unfold. cbn [derivative]. change (lang (Seq ?a ?b) w)
      with (exists w1 w2, w = (w1 ++ w2)%list /\ lang a w1 /\ lang b w2).
    split; intros (w1 & w2 & -> & H1 & H2); exists w1, w2.
    + by rewrite <- IH.
    + by rewrite IH.
Qed.

Lemma fullmatch_spec (r : regex) (s : string) :
  fullmatch r s = true <-> lang r (list_ascii_of_string s).
Proof.
  revert r. induction s as [|c s IH]; intros r; cbn.
  - apply nullable_spec.
  - by rewrite IH, derivative_spec.
Qed.

(** ** Letter case and digits *)

Lemma lower_upper_char (c : ascii) : lower_char (upper_char c) = lower_char c.
Proof. destruct c as [[] [] [] [] [] [] [] []]; reflexivity. Qed.

Lemma is_hex_digit_upper (c : ascii) : is_hex_digit (upper_char c) = is_hex_digit c.
Proof. destruct c as [[] [] [] [] [] [] [] []]; reflexivity. Qed.

Lemma is_hex_digit_lower (c : ascii) : is_hex_digit (lower_char c) = is_hex_digit c.
Proof. destruct c as [[] [] [] [] [] [] [] []]; reflexivity. Qed.

Lemma hex_class_spec (c : ascii) :
  ignore_case (fun c => in_range "0" "9" c || in_range "a" "f" c) c = is_hex_digit c.
Proof. destruct c as [[] [] [] [] [] [] [] []]; reflexivity. Qed.

Lemma zero_class_spec (c : ascii) :
  ignore_case (Ascii.eqb "0") c = Ascii.eqb c "0".
Proof. destruct c as [[] [] [] [] [] [] [] []]; reflexivity. Qed.

Lemma x_class_spec (c : ascii) :
  ignore_case (Ascii.eqb "x") c = Ascii.eqb c "x" || Ascii.eqb c "X".
Proof. destruct c as [[] [] [] [] [] [] [] []]; reflexivity. Qed.

Lemma int16_hex_digit (c : ascii) : is_hex_digit c = true -> is_Some (int16 c).
Proof. destruct c as [[] [] [] [] [] [] [] []]; (discriminate || (intros _; by eexists)). Qed.

Lemma is_hex_digit_not_x (c : ascii) :
  is_hex_digit c = true -> Ascii.eqb c "x" || Ascii.eqb c "X" = false.
Proof. destruct c as [[] [] [] [] [] [] [] []]; (discriminate || reflexivity). Qed.

Lemma all_hex_forall (s : string) :
  all_hex s = true <-> Forall (fun c => is_hex_digit c = true) (list_ascii_of_string s).
Proof.
  induction s as [|c s IH]; cbn.
  - split; [constructor|done].
  - rewrite andb_true_iff, IH, Forall_cons. done.
Qed.

Lemma star_class_spec (p : ascii -> bool) (w : list ascii) :
  lang (Star (Class p)) w <-> Forall (fun c => p c = true) w.
Proof.
  split.
  - intros (ws & -> & Hall). induction Hall as [|x ws (c & -> & Hc) _ IH]; cbn.
    + constructor.
    + by constructor.
  - intros Hall. exists ((fun c => [c]) <$> w). split.
    + induction w as [|c w IH]; [done|]. cbn. f_equal. apply IH.
      by apply Forall_cons in Hall as [_ ?].
    + induction Hall as [|c w Hc _ IH]; cbn; constructor; [by exists c|done].
Qed.

(** ** [is_hex_address] *)

Lemma is_hex_address_intro (pre digits : string) :
  pre = "" \/ pre = "0x" \/ pre = "0X" ->
  all_hex digits = true ->
  is_hex_address (Text (pre +:+ digits)) = true.
Proof.
  intros Hpre Hdigits. cbn [is_hex_address].
  rewrite fullmatch_spec. unfold _HEX_ADDRESS_REG_EXP, Optional.
  rewrite lang_seq.
  assert (Hstar : lang (Star (Class (ignore_case
            (fun c => in_range "0" "9" c || in_range "a" "f" c))))
            (list_ascii_of_string digits)).
  { apply star_class_spec. apply all_hex_forall in Hdigits.
    eapply Forall_impl; [exact Hdigits|]. intros c. cbn beta.
    by rewrite hex_class_spec. }
  destruct Hpre as [-> | [-> | ->]].
  - exists [], (list_ascii_of_string digits). split; [done|].
    split; [by right|done].
  - exists ["0"%char; "x"%char], (list_ascii_of_string digits).
    split; [done|]. split; [|done]. left.
    exists ["0"%char], ["x"%char]. split; [done|].
    split; [by exists "0"%char|by exists "x"%char].
  - exists ["0"%char; "X"%char], (list_ascii_of_string digits).
    split; [done|]. split; [|done]. left.
    exists ["0"%char], ["X"%char]. split; [done|].
    split; [by exists "0"%char|by exists "X"%char].
Qed.

(** X19. A text is a hex address exactly when it is a run of hexadecimal
    digits of any length, possibly none, after an optional [0x] or [0X];
    nothing but a text is one. *)
Theorem is_hex_address_spec (v : PyValue) :
  is_hex_address v = true
  <-> exists pre digits : string,
        v = Text (pre +:+ digits) /\
        (pre = "" \/ pre = "0x" \/ pre = "0X") /\
        all_hex digits = true.
Proof.
  split.
  2:{ intros (pre & digits & -> & Hpre & Hdigits). by apply is_hex_address_intro. }
  destruct v as [s|]; cbn [is_hex_address]; [|done].
  rewrite fullmatch_spec. unfold _HEX_ADDRESS_REG_EXP, Optional.
  rewrite lang_seq.
  intros (w1 & w2 & Hs & Hpre & Hstar).
  apply star_class_spec in Hstar. cbn [lang] in Hpre.
  assert (Hdigits : all_hex (string_of_list_ascii w2) = true).
  { apply all_hex_forall. rewrite list_ascii_of_string_of_list_ascii.
    eapply Forall_impl; [exact Hstar|]. intros c. cbn beta.
    by rewrite hex_class_spec. }
  apply (f_equal string_of_list_ascii) in Hs.
  rewrite string_of_list_ascii_of_string in Hs.
  destruct Hpre as [(u1 & u2 & -> & (c1 & -> & Hc1) & (c2 & -> & Hc2)) | ->].
  - rewrite zero_class_spec in Hc1. rewrite x_class_spec in Hc2.
    apply Ascii.eqb_eq in Hc1 as ->.
    apply orb_true_iff in Hc2 as [Hc2|Hc2]; apply Ascii.eqb_eq in Hc2 as ->.
    + exists "0x", (string_of_list_ascii w2). split; [by rewrite Hs|].
      split; [by right; left|done].
    + exists "0X", (string_of_list_ascii w2). split; [by rewrite Hs|].
      split; [by right; right|done].
  - exists "", (string_of_list_ascii w2). split; [by rewrite Hs|].
    split; [by left|done].
Qed.

(** ** [to_checksum_address] *)

Lemma lower_app (s t : string) : lower (s +:+ t) = lower s +:+ lower t.
Proof.
  unfold lower. induction s as [|c s IH]; [done|].
  change (String (lower_char c) (map_chars lower_char (s +:+ t))
          = String (lower_char c) (map_chars lower_char s +:+ map_chars lower_char t)).
  by rewrite IH.
Qed.

Lemma all_hex_lower (s : string) : all_hex (lower s) = all_hex s.
Proof.
  unfold lower. induction s as [|c s IH]; cbn [map_chars all_hex]; [done|].
  by rewrite is_hex_digit_lower, IH.
Qed.

Lemma all_hex_not_prefixed (s : string) :
  all_hex s = true -> is_0x_prefixed s = false.
Proof.
  unfold is_0x_prefixed.
  destruct s as [|c1 [|c2 s]]; cbn [all_hex String.prefix]; intros H.
  - done.
  - by destruct (ascii_dec "0" c1).
  - apply andb_true_iff in H as [_ H]. apply andb_true_iff in H as [H _].
    apply is_hex_digit_not_x in H. apply orb_false_iff in H as [Hx HX].
    apply Ascii.eqb_neq in Hx, HX.
    destruct (ascii_dec "0" c1); [|done].
    destruct (ascii_dec "x" c2); [congruence|].
    destruct (ascii_dec "X" c2); [congruence|]. done.
Qed.

Lemma length_lower (s : string) : String.length (lower s) = String.length s.
Proof.
  unfold lower. induction s as [|c s IH]; cbn [map_chars String.length]; [done|].
  by rewrite IH.
Qed.

Lemma lower_lower_char (c : ascii) : lower_char (lower_char c) = lower_char c.
Proof. destruct c as [[] [] [] [] [] [] [] []]; reflexivity. Qed.

Lemma lower_lower (s : string) : lower (lower s) = lower s.
Proof.
  unfold lower. induction s as [|c s IH]; cbn [map_chars]; [done|].
  by rewrite lower_lower_char, IH.
Qed.

Lemma remove_0x_prefix_0x (s : string) : remove_0x_prefix ("0x" +:+ s) = s.
Proof. by destruct s. Qed.

Lemma checksum_chars_ok (hex_address address_hash : string) :
  all_hex address_hash = true ->
  (String.length hex_address <= String.length address_hash)%nat ->
  exists joined : string,
    checksum_chars hex_address address_hash = Returns joined /\
    lower joined = lower hex_address /\
    all_hex joined = all_hex hex_address /\
    String.length joined = String.length hex_address.
Proof.
  revert address_hash. induction hex_address as [|c hex IH]; intros hash Hhash Hlen.
  - by exists "".
  - destruct hash as [|h hash]; [cbn in Hlen; lia|].
    cbn [all_hex] in Hhash. apply andb_true_iff in Hhash as [Hh Hhash].
    destruct (int16_hex_digit h Hh) as [v Hv].
    destruct (IH hash Hhash) as (joined & Hrun & Hlow & Hall & Hl);
      [cbn in Hlen; lia|].
    cbn [checksum_chars]. rewrite Hv, Hrun.
    eexists. split; [done|]. unfold lower in *.
    cbn [map_chars all_hex String.length]. rewrite Hlow, Hall, Hl.
    destruct (7 <? v); [|done].
    by rewrite lower_upper_char, is_hex_digit_upper.
Qed.

Lemma checksum_chars_short (hex_address address_hash : string) :
  all_hex address_hash = true ->
  (String.length address_hash < String.length hex_address)%nat ->
  checksum_chars hex_address address_hash = Raises IndexError.
Proof.
  revert hex_address. induction address_hash as [|h hash IH]; intros hex Hhash Hlen.
  - destruct hex; [cbn in Hlen; lia|done].
  - destruct hex as [|c hex]; [cbn in Hlen; lia|].
    cbn [all_hex] in Hhash. apply andb_true_iff in Hhash as [Hh Hhash].
    destruct (int16_hex_digit h Hh) as [v Hv].
    cbn [checksum_chars]. rewrite Hv, (IH hex Hhash); [done|cbn in Hlen; lia].
Qed.

Section ChecksumFacts.
Context {L : AddressLibrary}.

Lemma to_checksum_address_run (address : RawAddress) (digits digest : string) :
  hexstr_if_str_to_hex address = Ok ("0x" +:+ digits) ->
  all_hex digits = true ->
  keccak_hex (lower digits) = "0x" +:+ digest ->
  to_checksum_address address
  = match checksum_chars (lower digits) digest with
    | Returns joined => Returns (add_0x_prefix joined)
    | Raises e => Raises e
    end.
Proof.
  intros Hhex Hdigits Hkeccak. unfold to_checksum_address. rewrite Hhex.
  change (lower ("0x" +:+ digits)) with ("0x" +:+ lower digits).
  rewrite remove_0x_prefix_0x, Hkeccak. done.
Qed.

(** X20. The checksummed form of a hexadecimal address of at most 64
    digits is [0x] followed by the same digits, which differ from the
    given ones in letter case only, and it is a hex address. *)
Theorem to_checksum_address_changes_case_only
    (address : RawAddress) (digits digest : string) :
  hexstr_if_str_to_hex address = Ok ("0x" +:+ digits) ->
  all_hex digits = true ->
  keccak_hex (lower digits) = "0x" +:+ digest ->
  all_hex digest = true ->
  String.length digest = 64%nat ->
  (String.length digits <= 64)%nat ->
  exists joined : string,
    to_checksum_address address = Returns ("0x" +:+ joined) /\
    lower joined = lower digits /\
    String.length joined = String.length digits /\
    is_hex_address (Text ("0x" +:+ joined)) = true.
Proof.
  intros Hhex Hdigits Hkeccak Hdigest Hlen64 Hlen.
  rewrite (to_checksum_address_run address digits digest Hhex Hdigits Hkeccak).
  pose proof (length_lower digits) as Hll.
  destruct (checksum_chars_ok (lower digits) digest Hdigest)
    as (joined & -> & Hlow & Hall & Hl); [lia|].
  rewrite all_hex_lower, Hdigits in Hall.
  exists joined. unfold add_0x_prefix. rewrite (all_hex_not_prefixed joined Hall).
  split; [done|]. split.
  - rewrite Hlow. apply lower_lower.
  - split; [lia|]. apply is_hex_address_intro; [by right; left|done].
Qed.

(** X21. With more than 64 digits the hash runs out before the address
    does, and [to_checksum_address] ends in an [IndexError]. *)
Theorem to_checksum_address_index_error
    (address : RawAddress) (digits digest : string) :
  hexstr_if_str_to_hex address = Ok ("0x" +:+ digits) ->
  all_hex digits = true ->
  keccak_hex (lower digits) = "0x" +:+ digest ->
  all_hex digest = true ->
  String.length digest = 64%nat ->
  (64 < String.length digits)%nat ->
  to_checksum_address address = Raises IndexError.
Proof.
  intros Hhex Hdigits Hkeccak Hdigest Hlen64 Hlen.
  rewrite (to_checksum_address_run address digits digest Hhex Hdigits Hkeccak).
  pose proof (length_lower digits) as Hll.
  rewrite checksum_chars_short; [done|done|lia].
Qed.
End ChecksumFacts.

(** ** [handle_client_errors] *)

Lemma translate_cases (err : Caught) :
  (is_bad_request err = true ->
   translate err = ProviderErrorOf (default (err_str err) (err_text err))) /\
  (is_bad_request err = false -> occurs_in "rejected" (err_str err) ->
   translate err = VirtualMachineError err) /\
  (is_bad_request err = false -> ~ occurs_in "rejected" (err_str err) ->
   translate err = ProviderErrorOf (err_str err)).
Proof.
  unfold translate. destruct (is_bad_request err).
  - split; [|split]; try discriminate. intros _. by destruct (err_text err).
  - split; [discriminate|]. split; intros _ H.
    + apply str_in_occurs in H. by rewrite H.
    + apply str_in_false in H. by rewrite H.
Qed.

(** X22. What leaves a function decorated with [handle_client_errors]: a
    result only when the function returned it and it is no error response;
    a [VirtualMachineError] only for an exception that is no [BadRequest]
    and whose text has the word [rejected] in it; a [ProviderError]
    otherwise. The error raised for an error response is translated like
    an exception of the function, so a rejected transaction reported in a
    response is a [VirtualMachineError] as well. The state is the one the
    function left. *)
Theorem handle_client_errors_spec {S A : Type}
    (f : S -> S * Attempt (Response A)) (s : S) :
  (handle_client_errors f s).1 = (f s).1 /\
  (forall result : Response A,
     (handle_client_errors f s).2 = Passed result
     <-> (f s).2 = Returned result /\ error_message result = None) /\
  (forall base : Caught,
     (handle_client_errors f s).2 = Failed (VirtualMachineError base) ->
     is_bad_request base = false /\ occurs_in "rejected" (err_str base)) /\
  (forall err : Caught,
     (f s).2 = Threw err -> is_bad_request err = true ->
     (handle_client_errors f s).2
     = Failed (ProviderErrorOf (default (err_str err) (err_text err)))) /\
  (forall (fields : gmap string (gmap string string)) (error : gmap string string),
     (f s).2 = Returned (Object fields) ->
     fields !! "error" = Some error -> error <> ∅ ->
     let message := match error !! "message" with
                    | Some "" | None => "Transaction failed"
                    | Some message => message
                    end in
     (handle_client_errors f s).2
     = Failed (if str_in "rejected" message
               then VirtualMachineError (provider_error message)
               else ProviderErrorOf message)).
Proof.
  unfold handle_client_errors. destruct (f s) as [s' [result|err]] eqn:Hf; cbn [fst snd].
  - destruct (error_message result) as [message|] eqn:Hm; cbn [fst snd].
    + split; [done|]. split; [|split; [|split]].
      * intros r. split; [done|]. intros [[= ->] H]. congruence.
      * intros base. unfold translate, provider_error. cbn.
        destruct (str_in "rejected" message) eqn:Hr; [|done].
        intros [= <-]. cbn. split; [done|]. by apply str_in_occurs.
      * done.
      * intros fields error [= ->] Hfields Herror. cbn in Hm.
        rewrite Hfields in Hm. unfold truthy_dict in Hm.
        rewrite bool_decide_true in Hm by done.
        assert (message = match error !! "message" with
                          | Some "" | None => "Transaction failed"
                          | Some m => m
                          end) as <-.
        { destruct (error !! "message") as [m|]; [|congruence].
          injection Hm as <-. unfold truthy_str.
          destruct (String.eqb_spec m "") as [->|Hne]; [done|]. cbn.
          destruct m; [done|]. done. }
        cbn zeta. unfold translate, provider_error. cbn.
        by destruct (str_in "rejected" message).
    + split; [done|]. split; [|split; [|split]].
      * intros r. split; [by intros [= ->]|]. by intros [[= ->] _].
      * done.
      * done.
      * intros fields error [= ->] Hfields Herror. cbn in Hm.
        rewrite Hfields in Hm. unfold truthy_dict in Hm.
        rewrite bool_decide_true in Hm by done.
        by destruct (error !! "message").
  - split; [done|]. split; [|split; [|split]].
    + intros r. split; [done|]. by intros [? _].
    + intros base [= Ht]. destruct (translate_cases err) as (Hb & Hv & Hp).
      destruct (is_bad_request err) eqn:Eb.
      { rewrite (Hb eq_refl) in Ht. discriminate. }
      destruct (str_in "rejected" (err_str err)) eqn:Er.
      * apply str_in_occurs in Er. rewrite (Hv eq_refl Er) in Ht.
        injection Ht as <-. done.
      * apply str_in_false in Er. rewrite (Hp eq_refl Er) in Ht. discriminate.
    + intros e [= <-] Hbad. by rewrite (proj1 (translate_cases err) Hbad).
    + done.
Qed.

(** * The token manager *)

Section TokenFacts.
Context {E : Externals} {X : TokenExternals}.
Implicit Types s : TM.St.

Lemma first_use_fields s :
  TM.additional_tokens (TM.first_use s) = TM.additional_tokens s /\
  TM.local_balance_cache (TM.first_use s) = TM.local_balance_cache s /\
  TM.network_name (TM.first_use s) = TM.network_name s /\
  TM.world (TM.first_use s) = TM.world s /\
  TM.first_use (TM.first_use s) = TM.first_use s.
Proof.
  unfold TM.first_use. destruct (TM.base_map_computed s) eqn:Hc.
  - by rewrite Hc.
  - done.
Qed.

Lemma token_address_map_run s :
  TM.token_address_map s
  = (TM.first_use s, Done (TM.additional_tokens s ∪ TM.base_token_address_map)).
Proof.
  unfold TM.token_address_map, TM.and_then, TM._base_token_address_map.
  by rewrite (proj1 (first_use_fields s)).
Qed.

Lemma getitem_run (token : string) s :
  TM.__getitem__ token s
  = (TM.first_use s,
     match (TM.additional_tokens s ∪ TM.base_token_address_map) !! str_lower token with
     | None => Fault (MissingKey (str_lower token))
     | Some networks =>
         match networks !! TM.network_name s with
         | None => Fault (ContractTypeNotFoundError None)
         | Some contract_address =>
             if truthy_str contract_address then Done contract_address
             else Fault (ContractTypeNotFoundError (Some contract_address))
         end
     end).
Proof.
  unfold TM.__getitem__, TM.and_then. rewrite token_address_map_run.
  destruct ((TM.additional_tokens s ∪ TM.base_token_address_map) !! str_lower token)
    as [networks|]; [|done].
  destruct (networks !! TM.network_name s) as [a|]; [|done].
  by destruct (truthy_str a).
Qed.

Lemma sender_account_of_state (sender : Party) s :
  (TM.sender_account_of sender s).1 = s.
Proof. by destruct sender. Qed.

Lemma truthy_str_true (a : string) : a <> "" -> truthy_str a = true.
Proof.
  intros H. unfold truthy_str. by destruct (String.eqb_spec a "").
Qed.

(** X23. A token added for a network is found by [self[...]] on that
    network under every spelling that [str.lower] takes to the name it was
    added under. A token added under a name that is the lower-case form of
    no text, as a name with a capital letter in it, is found under no
    spelling: every lookup gives what it gave before. [is_token] knows the
    address in both cases. *)
Theorem add_token_then_getitem (name network address : string) s :
  address <> "" ->
  TM.network_name s = network ->
  let s1 := (TM.add_token name network address s).1 in
  (forall query : string,
     str_lower query = name -> (TM.__getitem__ query s1).2 = Done address) /\
  ((forall query : string, str_lower query <> name) ->
   forall query : string, (TM.__getitem__ query s1).2 = (TM.__getitem__ query s).2) /\
  (TM.is_token address s1).2 = Done true.
Proof.
  intros Haddr Hnet s1.
  assert (Hadd : TM.additional_tokens s1
                 = <[name := <[network := address]>
                               (default ∅ (TM.additional_tokens s !! name))]>
                     (TM.additional_tokens s)) by done.
  assert (Hnet1 : TM.network_name s1 = network) by done.
  split; [|split].
  - intros query Hq. rewrite getitem_run. cbn [snd]. rewrite Hadd, Hq, Hnet1.
    erewrite lookup_union_Some_l by apply lookup_insert_eq.
    rewrite lookup_insert_eq. by rewrite truthy_str_true.
  - intros Hname query. rewrite !getitem_run. cbn [snd]. rewrite Hadd.
    assert (Hne : name <> str_lower query).
    { intros ->. by apply (Hname query). }
    assert (Hlook : (<[name := <[network := address]>
                                 (default ∅ (TM.additional_tokens s !! name))]>
                       (TM.additional_tokens s) ∪ TM.base_token_address_map)
                    !! str_lower query
                    = (TM.additional_tokens s ∪ TM.base_token_address_map)
                      !! str_lower query).
    { rewrite !lookup_union, lookup_insert_ne by done. done. }
    rewrite Hlook. done.
  - unfold TM.is_token, TM.and_then. rewrite token_address_map_run.
    unfold TM.done_with. cbn [snd]. f_equal. apply existsb_exists.
    exists (name, <[network := address]> (default ∅ (TM.additional_tokens s !! name))).
    split.
    + apply list_elem_of_In, elem_of_map_to_list. rewrite Hadd.
      erewrite lookup_union_Some_l; [done|]. apply lookup_insert_eq.
    + apply bool_decide_eq_true. cbn [snd]. rewrite Hnet1. apply lookup_insert_eq.
Qed.

(** X24. The merged dictionary is shallow: once a token has been added
    for one network under a name that had no additional entry, every
    lookup that [str.lower] takes to that name finds no contract on any
    other network, also where the base map has an address for the name.
    After the fee token gets a local address, no contract is found for it
    on mainnet, where one was found before. *)
Theorem add_token_hides_base_addresses (name network address query : string) s :
  str_lower query = name ->
  TM.additional_tokens s !! name = None ->
  TM.network_name s <> network ->
  (TM.__getitem__ query (TM.add_token name network address s).1).2
  = Fault (ContractTypeNotFoundError None) /\
  (name = "eth" -> TM.network_name s = "mainnet" -> live_eth <> "" ->
   (TM.__getitem__ query s).2 = Done live_eth).
Proof.
  intros Hlow Hnone Hnet. split.
  - rewrite getitem_run. cbn [snd].
    change (TM.additional_tokens (TM.add_token name network address s).1)
      with (<[name := <[network := address]>
                        (default ∅ (TM.additional_tokens s !! name))]>
              (TM.additional_tokens s)).
    change (TM.network_name (TM.add_token name network address s).1)
      with (TM.network_name s).
    rewrite Hlow, Hnone.
    erewrite lookup_union_Some_l by apply lookup_insert_eq.
    rewrite lookup_insert_ne by done. done.
  - intros Hname Hmain Hlive. rewrite getitem_run. cbn [snd].
    rewrite Hlow, Hmain. rewrite lookup_union_r by done. rewrite Hname.
    unfold TM.base_token_address_map. rewrite lookup_insert_eq.
    rewrite lookup_insert_ne by done. rewrite lookup_insert_eq.
    by rewrite truthy_str_true.
Qed.

Lemma get_balance_run_inner (account token : string) s :
  TM._get_balance account token s
  = match TM.__getitem__ token s with
    | (s1, Done contract) =>
        (s1,
         match balanceOf contract account (TM.world s1) with
         | Ok (Sequence [low; high]) => Done (Z.shiftl high 128 + low)
         | Ok (Sequence (first :: _)) => Done first
         | Ok (Sequence []) => Fault EmptyResult
         | Ok (Number n) => Done n
         | Raise e => Fault (FromOutside e)
         end)
    | (s1, Fault e) => (s1, Fault e)
    end.
Proof.
  unfold TM._get_balance. unfold TM.and_then at 1.
  destruct (TM.__getitem__ token s) as [s1 [contract|e]]; [|done].
  unfold TM.and_then.
  destruct (balanceOf contract account (TM.world s1)) as [[n|[|x [|y [|z l]]]]|e];
    done.
Qed.

(** X25. The two words of a balance are put together again: when
    [balanceOf] gives the pair of a low word below 2^128 and a high word,
    [_get_balance] is the number whose low 128 bits are the first and whose
    remaining bits are the second. A sequence of any other length counts
    for its first item only. *)
Theorem get_balance_recomposes (account token contract : string) s s1
    (items : list Z) :
  TM.__getitem__ token s = (s1, Done contract) ->
  balanceOf contract account (TM.world s1) = Ok (Sequence items) ->
  (forall low high : Z,
     items = [low; high] -> 0 <= low < 2 ^ 128 -> 0 <= high ->
     exists v : Z,
       TM._get_balance account token s = (s1, Done v) /\
       Z.land v (Z.ones 128) = low /\ Z.shiftr v 128 = high) /\
  (forall first : Z, forall rest : list Z,
     items = first :: rest -> length rest <> 1%nat ->
     TM._get_balance account token s = (s1, Done first)) /\
  (items = [] -> TM._get_balance account token s = (s1, Fault EmptyResult)).
Proof.
  intros Hget Hcall. rewrite get_balance_run_inner, Hget, Hcall.
  split; [|split].
  - intros low high -> Hlow Hhigh. eexists. split; [done|].
    rewrite Z.shiftl_mul_pow2 by lia. split.
    + rewrite Z.land_ones by lia. rewrite Z.add_comm, Z.mod_add by lia.
      apply Z.mod_small. lia.
    + rewrite Z.shiftr_div_pow2 by lia. rewrite Z.add_comm, Z.div_add by lia.
      rewrite Z.div_small by lia. lia.
  - intros first rest -> Hrest. by destruct rest as [|y [|z l]].
  - by intros ->.
Qed.

Lemma get_balance_local_run (account : Holder) (token : string) s :
  TM.network_name s = LOCAL_NETWORK_NAME ->
  TM.get_balance account token s
  = match TM.local_balance_cache s !! TM.holder_address account with
    | Some balance => (s, Done balance)
    | None =>
        match TM._get_balance (TM.holder_address account) "eth" s with
        | (s1, Done balance) =>
            (TM.set_local_balance_cache
               (<[TM.holder_address account := balance]>
                  (TM.local_balance_cache s1)) s1, Done balance)
        | (s1, Fault e) => (s1, Fault e)
        end
    end.
Proof.
  intros Hl. unfold TM.get_balance. rewrite Hl, String.eqb_refl. cbn [negb].
  fold (TM.holder_address account). unfold TM.and_then at 1.
  destruct (TM.local_balance_cache s !! TM.holder_address account) as [b|] eqn:Hc.
  - by rewrite Hc.
  - unfold TM.and_then.
    destruct (TM._get_balance (TM.holder_address account) "eth" s) as [s1 [b|e]];
      [|done].
    cbn [TM.local_balance_cache TM.set_local_balance_cache].
    by rewrite lookup_insert_eq.
Qed.

(** X26. On the local network the balance is cached by address alone and
    the token asked for is not looked at: a balance that is cached
    answers for every token, known or not, with no call and no change of
    state, and one that is not cached is the balance of the fee token,
    which is cached from then on. *)
Theorem get_balance_local_ignores_token (account : Holder) (token : string) s :
  TM.network_name s = LOCAL_NETWORK_NAME ->
  TM.get_balance account token s = TM.get_balance account "eth" s /\
  (forall balance : Z,
     TM.local_balance_cache s !! TM.holder_address account = Some balance ->
     TM.get_balance account token s = (s, Done balance)) /\
  (forall (balance : Z) s1,
     TM.get_balance account token s = (s1, Done balance) ->
     TM.local_balance_cache s1 !! TM.holder_address account = Some balance /\
     forall token' : string, TM.get_balance account token' s1 = (s1, Done balance)).
Proof.
  intros Hlocal.
  pose proof (get_balance_local_run account) as Hrun.
  split; [by rewrite !Hrun|]. split.
  - intros balance Hc. by rewrite Hrun, Hc.
  - intros balance s1 Hget. rewrite Hrun in Hget by done.
    assert (Hs1 : TM.local_balance_cache s1 !! TM.holder_address account = Some balance
                  /\ TM.network_name s1 = LOCAL_NETWORK_NAME).
    { destruct (TM.local_balance_cache s !! TM.holder_address account) as [b|] eqn:Hc.
      - injection Hget as <- <-. done.
      - rewrite get_balance_run_inner, getitem_run in Hget.
        destruct (_ !! str_lower "eth") as [networks|]; [|done].
        destruct (networks !! TM.network_name s) as [a|]; [|done].
        destruct (truthy_str a); [|done].
        destruct (balanceOf a (TM.holder_address account) (TM.world (TM.first_use s)))
          as [[n|[|x [|y [|z l]]]]|e]; try done;
          injection Hget as <- <-;
          cbn [TM.local_balance_cache TM.set_local_balance_cache TM.network_name];
          (split; [apply lookup_insert_eq|]);
          by rewrite (proj1 (proj2 (proj2 (first_use_fields s)))). }
    destruct Hs1 as [Hc1 Hl1]. split; [done|].
    intros token'. by rewrite Hrun, Hc1.
Qed.

(** X27. What a transfer does to the balance cache on top of what the call
    itself does: the balance cached for the decoded address of the
    receiver grows by the amount, and no entry is added. After a balance
    was read on the local network and a transfer to that address went
    through, the next reading is the earlier one plus the amount, provided
    the address is in decoded form and the call left its entry alone. *)
Theorem transfer_credits_cached_receiver
    (sender : Party) (receiver token token' : string) (amount before : Z)
    (result : TransferResult) s s1 :
  TM.network_name s = LOCAL_NETWORK_NAME ->
  decode_address receiver = receiver ->
  (forall contract n a p wc,
     (contract_transfer contract n a p wc).1.2 !! receiver = wc.2 !! receiver) ->
  TM.local_balance_cache s !! receiver = Some before ->
  TM.transfer sender (PartyStr receiver) amount token s = (s1, Done result) ->
  TM.local_balance_cache s1 !! receiver = Some (before + amount) /\
  TM.get_balance (HolderAddress receiver) token' s1 = (s1, Done (before + amount)).
Proof.
  intros Hlocal Hdec Hkeep Hbefore Hrun.
  unfold TM.transfer in Hrun. rewrite Hdec in Hrun.
  unfold TM.and_then at 1 in Hrun.
  pose proof (sender_account_of_state sender s) as Hres.
  destruct (TM.sender_account_of sender s) as [s0 [sender_account|e]];
    [|by cbv beta iota in Hrun].
  cbn [fst] in Hres. subst s0. cbv beta iota in Hrun.
  unfold TM.and_then at 1 in Hrun. rewrite getitem_run in Hrun.
  destruct (_ !! str_lower token) as [networks|]; [|by cbv beta iota in Hrun].
  destruct (networks !! TM.network_name s) as [contract|];
    [|by cbv beta iota in Hrun].
  destruct (truthy_str contract); [|by cbv beta iota in Hrun].
  cbv beta iota in Hrun. unfold TM.and_then at 1 in Hrun.
  destruct (first_use_fields s) as (_ & Hfc & Hfn & _ & _).
  pose proof (Hkeep contract (encode_address receiver) amount sender_account
                (TM.world (TM.first_use s), TM.local_balance_cache (TM.first_use s)))
    as Hk.
  destruct (contract_transfer contract (encode_address receiver) amount sender_account
              (TM.world (TM.first_use s), TM.local_balance_cache (TM.first_use s)))
    as [[world' cache'] [r|e]]; [|done].
  cbn [fst snd] in Hk. rewrite Hfc, Hbefore in Hk.
  cbn [outcome_of TM.local_balance_cache TM.set_local_balance_cache] in Hrun.
  rewrite Hk in Hrun. injection Hrun as <- <-.
  assert (Hc1 : TM.local_balance_cache
                  (TM.set_local_balance_cache (<[receiver := before + amount]> cache')
                     (TM.set_local_balance_cache cache'
                        (TM.set_world world' (TM.first_use s))))
                !! receiver = Some (before + amount)).
  { cbn. apply lookup_insert_eq. }
  split; [exact Hc1|].
  rewrite get_balance_local_run by (cbn; by rewrite Hfn).
  cbn [TM.holder_address]. by rewrite Hc1.
Qed.

(** X28. A receiver given as an object: with the attribute [address_int]
    the transfer is sent and the method then ends in an
    [UnboundLocalError], whatever the call gave back, so it never returns;
    without it nothing is sent and the state is untouched. *)
Theorem transfer_to_account_object
    (sender : Party) (amount : Z) (token : string) s :
  (forall (n : Z) (result : TransferResult),
     (TM.transfer sender (PartyObject (Some n)) amount token s).2 <> Done result) /\
  (forall (n : Z) (contract : string) (sender_account : Party) s1 world' cache' result,
     TM.sender_account_of sender s = (s, Done sender_account) ->
     TM.__getitem__ token s = (s1, Done contract) ->
     contract_transfer contract n amount sender_account
       (TM.world s1, TM.local_balance_cache s1) = ((world', cache'), Ok result) ->
     TM.transfer sender (PartyObject (Some n)) amount token s
     = (TM.set_local_balance_cache cache' (TM.set_world world' s1),
        Fault (UnboundLocalError "receiver_address"))) /\
  TM.transfer sender (PartyObject None) amount token s
  = (s, Fault StarknetProviderError).
Proof.
  split; [|split].
  - intros n result. unfold TM.transfer. unfold TM.and_then at 1.
    destruct (TM.sender_account_of sender s) as [s0 [sender_account|e]]; [|done].
    unfold TM.and_then at 1.
    destruct (TM.__getitem__ token s0) as [s1 [contract|e]]; [|done].
    unfold TM.and_then at 1.
    destruct (contract_transfer contract n amount sender_account
                (TM.world s1, TM.local_balance_cache s1)) as [[w c] [r|e]]; done.
  - intros n contract sender_account s1 world' cache' result Hs Hget Hcall.
    unfold TM.transfer. unfold TM.and_then at 1.
    rewrite Hs. unfold TM.and_then at 1. rewrite Hget.
    unfold TM.and_then at 1. by rewrite Hcall.
  - done.
Qed.
End TokenFacts.

(** ** The helpers and the token manager on sample data *)

Section HelperExamples.
#[local] Existing Instance Sample.externals.
#[local] Existing Instance SampleTokens.address_library.
#[local] Existing Instance SampleTokens.token_externals.

Lemma get_chain_id_spec_witness :
  get_chain_id SampleTokens.value (NetworkNumber 2) = Ok TESTNET /\
  get_chain_id SampleTokens.value (NetworkNumber 3) = Raise ValueError /\
  (get_chain_id SampleTokens.value (NetworkName "local") = Ok TESTNET
   <-> "local" = "testnet" \/ "local" = "local").
Proof.
  destruct (get_chain_id_spec SampleTokens.value) as (Hv & Hn & _ & Ht & _).
  { cbn. lia. }
  split; [exact (Hv TESTNET)|]. split; [apply Hn; cbn; lia|]. apply Ht.
Defined.

Lemma get_chain_id_of_clean_name_witness :
  (exists c, get_chain_id SampleTokens.value
               (NetworkName (_clean_network_name "alpha-mainnet")) = Ok c) /\
  ~ (exists c, get_chain_id SampleTokens.value (NetworkName "alpha-mainnet") = Ok c).
Proof.
  destruct (get_chain_id_of_clean_name SampleTokens.value "alpha-mainnet")
    as (Hclean & Hdirect & _).
  { cbn. lia. }
  split.
  - apply Hclean. exists "mainnet". split.
    + unfold network_tokens. by right; left.
    + by exists "alpha-", "".
  - intros H. apply Hdirect in H. unfold network_tokens in H.
    apply elem_of_cons in H as [H|H]; [discriminate|].
    apply elem_of_cons in H as [H|H]; [discriminate|].
    apply elem_of_cons in H as [H|H]; [discriminate|].
    by apply elem_of_nil in H.
Defined.

Lemma is_hex_address_spec_witness :
  is_hex_address (Text "0x") = true /\ is_hex_address (Text "0XaB1") = true.
Proof.
  split.
  - apply (proj2 (is_hex_address_spec (Text "0x"))). exists "0x", "".
    split; [reflexivity|]. split; [by right; left|reflexivity].
  - apply (proj2 (is_hex_address_spec (Text "0XaB1"))). exists "0X", "aB1".
    split; [reflexivity|]. split; [by right; right|reflexivity].
Defined.

Lemma to_checksum_address_changes_case_only_witness :
  exists joined : string,
    @to_checksum_address SampleTokens.address_library "0xab"
    = Returns ("0x" +:+ joined) /\
    lower joined = lower "ab" /\
    String.length joined = String.length "ab" /\
    is_hex_address (Text ("0x" +:+ joined)) = true.
Proof.
  apply (@to_checksum_address_changes_case_only SampleTokens.address_library
           "0xab" "ab" SampleTokens.digest);
    [reflexivity | reflexivity | reflexivity | reflexivity | reflexivity | cbn; lia].
Defined.

Lemma to_checksum_address_index_error_witness :
  @to_checksum_address SampleTokens.address_library
    "0x00000000000000000000000000000000000000000000000000000000000000001"
  = Raises IndexError.
Proof.
  apply (@to_checksum_address_index_error SampleTokens.address_library
           "0x00000000000000000000000000000000000000000000000000000000000000001"
           "00000000000000000000000000000000000000000000000000000000000000001"
           SampleTokens.digest);
    [reflexivity | reflexivity | reflexivity | reflexivity | reflexivity | cbn; lia].
Defined.

Lemma handle_client_errors_spec_witness :
  let response : Response unit :=
    Object {["error" := {["message" := "transaction rejected"]}]} in
  let f : unit -> unit * Attempt (Response unit) := fun s => (s, Returned response) in
  (handle_client_errors f tt).2
  = Failed (VirtualMachineError (provider_error "transaction rejected")).
Proof.
  intros response f.
  destruct (handle_client_errors_spec f tt) as (_ & _ & _ & _ & Herr).
  etransitivity.
  - apply (Herr {["error" := {["message" := "transaction rejected"]}]}
                {["message" := "transaction rejected"]}).
    + reflexivity.
    + reflexivity.
    + intros H. apply (f_equal (fun m => m !! "message")) in H. discriminate.
  - vm_compute. reflexivity.
Defined.

Lemma add_token_then_getitem_witness :
  (let s := SampleTokens.manager "local" ∅ in
   let s1 := (TM.add_token "test_token" "local" "0x77" s).1 in
   (TM.__getitem__ "Test_Token" s1).2 = Done "0x77" /\
   (TM.is_token "0x77" s1).2 = Done true) /\
  (let s := SampleTokens.manager "local" ∅ in
   let s1 := (TM.add_token "Test_Token" "local" "0x77" s).1 in
   (TM.__getitem__ "Test_Token" s1).2 = (TM.__getitem__ "Test_Token" s).2 /\
   (TM.is_token "0x77" s1).2 = Done true).
Proof.
  split; intros s s1.
  - destruct (add_token_then_getitem "test_token" "local" "0x77" s)
      as (Hget & _ & His).
    { discriminate. }
    { reflexivity. }
    split; [apply Hget; reflexivity|exact His].
  - destruct (add_token_then_getitem "Test_Token" "local" "0x77" s)
      as (_ & Hmiss & His).
    { discriminate. }
    { reflexivity. }
    split; [|exact His]. apply Hmiss. intros query Hq.
    pose proof (lower_lower query) as Hfix. cbn [str_lower SampleTokens.token_externals] in Hq.
    rewrite Hq in Hfix. vm_compute in Hfix. discriminate Hfix.
Defined.

Lemma add_token_hides_base_addresses_witness :
  let s := SampleTokens.manager "mainnet" ∅ in
  (TM.__getitem__ "eth" (TM.add_token "eth" "local" "0x77" s).1).2
  = Fault (ContractTypeNotFoundError None) /\
  (TM.__getitem__ "eth" s).2 = Done "0xEE".
Proof.
  intros s.
  destruct (add_token_hides_base_addresses "eth" "local" "0x77" "eth" s)
    as (Hafter & Hbefore).
  { reflexivity. }
  { reflexivity. }
  { discriminate. }
  split; [exact Hafter|]. apply Hbefore; [reflexivity|reflexivity|discriminate].
Defined.

Lemma get_balance_recomposes_witness :
  let s := SampleTokens.manager "local" ∅ in
  exists v : Z,
    TM._get_balance "0xB0B" "eth" s = (TM.first_use s, Done v) /\
    Z.land v (Z.ones 128) = 50 /\ Z.shiftr v 128 = 0.
Proof.
  intros s.
  destruct (get_balance_recomposes "0xB0B" "eth" "0xFE" s (TM.first_use s) [50; 0])
    as (Hpair & _ & _).
  { vm_compute. reflexivity. }
  { vm_compute. reflexivity. }
  apply (Hpair 50 0); [reflexivity|lia|lia].
Defined.

Lemma get_balance_local_ignores_token_witness :
  let s := SampleTokens.manager "local" {["0xB0B" := 50]} in
  TM.get_balance (HolderAddress "0xB0B") "no_such_token" s = (s, Done 50).
Proof.
  intros s.
  destruct (get_balance_local_ignores_token (HolderAddress "0xB0B") "no_such_token" s)
    as (_ & Hcached & _).
  { reflexivity. }
  apply Hcached. reflexivity.
Defined.

Lemma transfer_credits_cached_receiver_witness :
  let s := SampleTokens.manager "local" {["0xB0B" := 50]} in
  let s1 := (TM.transfer (PartyObject None) (PartyStr "0xB0B") 10 "eth" s).1 in
  TM.local_balance_cache s1 !! "0xB0B" = Some (50 + 10) /\
  TM.get_balance (HolderAddress "0xB0B") "eth" s1 = (s1, Done (50 + 10)).
Proof.
  intros s s1.
  apply (transfer_credits_cached_receiver (PartyObject None) "0xB0B" "eth" "eth" 10 50
           (1 : @TransferResult SampleTokens.token_externals) s s1).
  - reflexivity.
  - reflexivity.
  - intros contract n a p wc. reflexivity.
  - reflexivity.
  - vm_compute. reflexivity.
Defined.

Lemma transfer_to_account_object_witness :
  let s := SampleTokens.manager "local" ∅ in
  TM.transfer (PartyStr "0xA11CE") (PartyObject (Some 5)) 10 "eth" s
  = (TM.set_local_balance_cache ∅ (TM.set_world {["0xB0B" := 50]} (TM.first_use s)),
     Fault (UnboundLocalError "receiver_address")).
Proof.
  intros s.
  destruct (transfer_to_account_object (PartyStr "0xA11CE") 10 "eth" s) as (_ & Hsent & _).
  apply (Hsent 5 "0xFE" (PartyObject None) (TM.first_use s) {["0xB0B" := 50]} ∅
               (1 : @TransferResult SampleTokens.token_externals)).
  - reflexivity.
  - vm_compute. reflexivity.
  - vm_compute. reflexivity.
Defined.
End HelperExamples.
